(** * fetch-wikipedia.py: the bounded streaming extraction pipeline

    A shallow embedding of [scripts/fetch-wikipedia.py] and the properties
    its specification states about it.

    Modelling conventions.
    - A Python [str] is the list of its code points ([list N]); [len] is
      the length of that list.  The records of the dataset are decoded
      UTF-8 text, so their code points are Unicode scalar values.
    - A Python [int] is a [Z].
    - The [float] given as [size_mb] is a rational ([Q], every finite
      binary64 value is one) or one of the special values; Python compares
      an [int] with a [float] exactly, and a product with 1024 is exact
      or, from magnitude 2^1024 on, infinite.  Floats that the script
      computes by division are kept as the tree of operations that
      produced them, so no rounding is assumed.
    - The output directory is a finite map from file names to file
      contents; [Path.exists] is membership in that map.  The file system
      accepts every name and every write: a name it would refuse (too
      long, or with a NUL character) and other failures of the operating
      system are outside the model.
    - The dataset is the list of what each pull of the stream produces: a
      record, or the delivery of the operator's interrupt.
    - Exceptions are values: a computation returns [Ok v] or [Raise e]
      together with the state of the world it leaves behind.
    - Console output is left out. *)

From Stdlib Require Import QArith Lqa.
From stdpp Require Import base decidable option list numbers strings
  countable gmap fin_maps pretty.

Set Default Proof Using "Type".
Local Open Scope Z_scope.

(** ** Strings *)

Abbreviation str := (list N).

(** The code points of a string literal of the source. *)
Definition lit (s : string) : str :=
  (λ a : Ascii.ascii, Ascii.N_of_ascii a) <$> String.list_ascii_of_string s.

(** [f"{counter}"]: the decimal numeral of an [int]. *)
Definition py_str (n : Z) : str := lit (pretty n).

(** [str.isspace] for one code point (CPython's [_PyUnicode_IsWhitespace]):
    the characters [str.strip()] removes. *)
Definition Py_UNICODE_ISSPACE (c : N) : bool :=
  ((9 <=? c) && (c <=? 13) || (28 <=? c) && (c <=? 32) || (c =? 133)
   || (c =? 160) || (c =? 5760) || (8192 <=? c) && (c <=? 8202)
   || (c =? 8232) || (c =? 8233) || (c =? 8239) || (c =? 8287)
   || (c =? 12288))%N.

Fixpoint lstrip (s : str) : str :=
  match s with
  | c :: s' => if Py_UNICODE_ISSPACE c then lstrip s' else s
  | [] => []
  end.

Definition rstrip (s : str) : str := reverse (lstrip (reverse s)).

(** [s.strip()] *)
Definition strip (s : str) : str := rstrip (lstrip s).

(** [len(s)] *)
Definition len (s : str) : Z := Z.of_nat (length s).

(** Number of bytes of one code point in UTF-8. *)
Definition utf8_width (c : N) : Z :=
  if (c <? 128)%N then 1
  else if (c <? 2048)%N then 2
  else if (c <? 65536)%N then 3
  else 4.

(** [estimate_size], lines 27-29: [len(text.encode('utf-8'))]. *)
Definition estimate_size (text : str) : Z :=
  foldr (λ c acc, utf8_width c + acc) 0 text.

(** [text.encode('utf-8')]: the bytes of a text, as numbers below 256. *)
Definition utf8_encode_char (c : N) : list N :=
  (if c <? 128 then [c]
   else if c <? 2048 then [192 + c / 64; 128 + c mod 64]
   else if c <? 65536 then
     [224 + c / 4096; 128 + (c / 64) mod 64; 128 + c mod 64]
   else [240 + c / 262144; 128 + (c / 4096) mod 64;
         128 + (c / 64) mod 64; 128 + c mod 64])%N.

Definition utf8_encode (text : str) : list N :=
  flat_map utf8_encode_char text.

(** [s.replace(old, new)] for one-character [old] and [new]. *)
Definition str_replace (old new : N) (s : str) : str :=
  (λ c, if decide (c = old) then new else c) <$> s.

(** The list [unsafe_chars] of line 35, as code points: slash, backslash,
    colon, asterisk, question mark, double quote, less-than, greater-than
    and vertical bar. *)
Definition unsafe_chars : list N :=
  [47; 92; 58; 42; 63; 34; 60; 62; 124]%N.

Definition underscore : N := 95%N.

(** [clean_article_title], lines 32-39: one [replace] per unsafe
    character, in the order of the list. *)
Definition clean_article_title (title : str) : str :=
  foldl (λ cleaned char, str_replace char underscore cleaned)
        title unsafe_chars.

(** ** Records and documents *)

(** A record of the dataset.  The script reads ['title'] with
    [article['title']] and the other three keys with [article.get]. *)
Record Article := {
  art_id : option str;
  art_url : option str;
  art_title : str;
  art_text : option str;
}.

Record Metadata := {
  md_categories : list str;
  md_url : str;
  md_id : str;
}.

Record RagArticle := {
  rag_title : str;
  rag_content : str;
  rag_metadata : Metadata;
}.

(** ** Exceptions *)

Inductive exn :=
  | ValueError
  | KeyError
  | TypeError
  | ZeroDivisionError
  | KeyboardInterrupt
  | SystemExit (code : Z)
  | ProbeUnfinished.

Inductive result (A : Type) :=
  | Ok (a : A)
  | Raise (e : exn).
Arguments Ok {A} a.
Arguments Raise {A} e.

#[global] Instance result_ret : MRet result := λ A a, Ok a.
#[global] Instance result_bind : MBind result := λ A B k r,
  match r with
  | Ok a => k a
  | Raise e => Raise e
  end.

(** [article['text']] *)
Definition subscript_text (article : Article) : result str :=
  match art_text article with
  | Some t => Ok t
  | None => Raise KeyError
  end.

(** [convert_to_rag_format], lines 42-73. *)
Definition convert_to_rag_format (article : Article) : result RagArticle :=
  text ← subscript_text article;
  Ok {| rag_title := art_title article;
        rag_content := text;
        rag_metadata :=
          {| md_categories := [];
             md_url := default [] (art_url article);
             md_id := default [] (art_id article) |} |}.

(** ** Numbers *)

(** A [float] received from the command line. *)
Inductive pyfloat :=
  | Ffin (q : Q)
  | Finf
  | Fninf
  | Fnan.

(** A [float] computed by the script, as the operation that produced it. *)
Inductive fval :=
  | IntDivInt (a b : Z)
  | IntDivFloat (a : Z) (x : pyfloat)
  | FloatDivInt (x : fval) (k : Z).

Inductive pynum :=
  | PyInt (n : Z)
  | PyFloat (x : fval).

(** [bool(x)] for a float: everything but zero is true. *)
Definition float_truthy (x : pyfloat) : bool :=
  match x with
  | Ffin q => negb (Qeq_bool q 0)
  | _ => true
  end.

(** The bound of the finite floats: a product of magnitude 2^1024 or more
    is not a finite binary64 value. *)
Definition float_overflow : Q := inject_Z (2 ^ 1024).

(** [x * 1024]: exact, and infinite when the product overflows. *)
Definition float_mul_1024 (x : pyfloat) : pyfloat :=
  match x with
  | Ffin q =>
      let product := (q * inject_Z 1024)%Q in
      if Qle_bool float_overflow product then Finf
      else if Qle_bool product (- float_overflow) then Fninf
      else Ffin product
  | other => other
  end.

(** [n >= x] for an int [n] and a float [x]. *)
Definition int_ge_float (n : Z) (x : pyfloat) : bool :=
  match x with
  | Ffin q => Qle_bool q (inject_Z n)
  | Finf => false
  | Fninf => true
  | Fnan => false
  end.

(** [n >= target_size_bytes], where the target may be [None]. *)
Definition int_ge_target (n : Z) (target : option pyfloat) : result bool :=
  match target with
  | Some x => Ok (int_ge_float n x)
  | None => Raise TypeError
  end.

(** [a / b] for two ints. *)
Definition int_truediv (a b : Z) : result fval :=
  if decide (b = 0) then Raise ZeroDivisionError else Ok (IntDivInt a b).

(** [a / article_count], where the count may be [None]. *)
Definition int_truediv_count (a : Z) (b : option Z) : result fval :=
  match b with
  | Some b => int_truediv a b
  | None => Raise TypeError
  end.

(** [a / target_size_bytes], where the target may be [None]. *)
Definition int_truediv_target (a : Z) (target : option pyfloat)
  : result fval :=
  match target with
  | Some x => if float_truthy x then Ok (IntDivFloat a x)
              else Raise ZeroDivisionError
  | None => Raise TypeError
  end.

(** [x / k] for a float [x] and an int [k]. *)
Definition float_truediv_int (x : fval) (k : Z) : result fval :=
  if decide (k = 0) then Raise ZeroDivisionError else Ok (FloatDivInt x k).

(** ** The world: output directory and stream *)

Record Stats := {
  stats_articles_saved : Z;
  stats_articles_skipped : Z;
  stats_total_size_mb : fval;
  stats_average_article_size_kb : pynum;
  stats_output_directory : str;
  stats_language : str;
}.

(** What a name of the output directory holds: a document written by
    [json.dump], the run summary, or anything else that was there. *)
Inductive File :=
  | ArticleFile (doc : RagArticle)
  | MetadataFile (stats : Stats)
  | OtherFile.

(** [pulled] counts the records the stream has been made to produce. *)
Record World := {
  dir_exists : bool;
  files : gmap str File;
  pulled : nat;
}.

Inductive pull :=
  | Yield (article : Article)
  | Interrupt.

(** Computations that act on the world and may raise. *)
Definition M (A : Type) : Type := World → result A * World.

#[global] Instance M_ret : MRet M := λ A a w, (Ok a, w).
#[global] Instance M_bind : MBind M := λ A B k m w,
  match m w with
  | (Ok a, w') => k a w'
  | (Raise e, w') => (Raise e, w')
  end.

Definition raise {A} (e : exn) : M A := λ w, (Raise e, w).

Definition lift {A} (r : result A) : M A := λ w, (r, w).

(** [output_dir.mkdir(parents=True, exist_ok=True)] *)
Definition mkdir : M unit := λ w,
  (Ok (), {| dir_exists := true; files := files w; pulled := pulled w |}).

(** [filepath.exists()] *)
Definition path_exists (filename : str) : M bool := λ w,
  (Ok (bool_decide (is_Some (files w !! filename))), w).

(** [with open(filepath, 'w') as f: json.dump(content, f)] *)
Definition write_file (filename : str) (content : File) : M unit := λ w,
  (Ok (), {| dir_exists := dir_exists w;
             files := <[filename := content]> (files w);
             pulled := pulled w |}).

(** One more record has been taken from the stream. *)
Definition count_pull : M unit := λ w,
  (Ok (), {| dir_exists := dir_exists w; files := files w;
             pulled := S (pulled w) |}).

(** ** Configuration and running totals *)

Record Config := {
  output_dir : str;
  size_mb : option pyfloat;
  article_count : option Z;
  language : str;
  split : str;
}.

Record Locals := {
  total_size_bytes : Z;
  articles_saved : Z;
  articles_skipped : Z;
}.

(** [if size_mb] *)
Definition size_mb_truthy (cfg : Config) : bool :=
  match size_mb cfg with
  | Some x => float_truthy x
  | None => false
  end.

(** [if article_count] *)
Definition article_count_truthy (cfg : Config) : bool :=
  match article_count cfg with
  | Some n => negb (n =? 0)
  | None => false
  end.

(** Line 127: [size_mb * 1024 * 1024 if size_mb else None]. *)
Definition target_size_bytes (cfg : Config) : option pyfloat :=
  match size_mb cfg with
  | Some x =>
      if float_truthy x then Some (float_mul_1024 (float_mul_1024 x))
      else None
  | None => None
  end.

(** ** The streaming loop *)

(** Line 140: [size_mb and total_size_bytes >= target_size_bytes]. *)
Definition size_reached (cfg : Config) (target : option pyfloat)
    (st : Locals) : result bool :=
  if size_mb_truthy cfg then int_ge_target (total_size_bytes st) target
  else Ok false.

(** Line 142: [article_count and articles_saved >= article_count]. *)
Definition count_reached (cfg : Config) (st : Locals) : result bool :=
  if article_count_truthy cfg then
    match article_count cfg with
    | Some n => Ok (n <=? articles_saved st)
    | None => Raise TypeError
    end
  else Ok false.

(** Line 146: [not article.get('text') or
    len(article['text'].strip()) < 100]. *)
Definition no_text (article : Article) : result bool :=
  match art_text article with
  | None | Some [] => Ok true
  | Some _ => text ← subscript_text article; Ok (len (strip text) <? 100)
  end.

(** Line 151: [len(article['text']) < 500]. *)
Definition very_short (article : Article) : result bool :=
  text ← subscript_text article; Ok (len text <? 500).

(** [articles_skipped += 1] *)
Definition skip (st : Locals) : Locals :=
  {| total_size_bytes := total_size_bytes st;
     articles_saved := articles_saved st;
     articles_skipped := articles_skipped st + 1 |}.

(** Lines 175-177. *)
Definition saved (article_size : Z) (st : Locals) : Locals :=
  {| total_size_bytes := total_size_bytes st + article_size;
     articles_saved := articles_saved st + 1;
     articles_skipped := articles_skipped st |}.

(** [f"{safe_title}.json"] and [f"{safe_title}_{counter}.json"]. *)
Definition first_filename (safe_title : str) : str :=
  safe_title ++ lit ".json".

Definition numbered_filename (safe_title : str) (counter : Z) : str :=
  safe_title ++ lit "_" ++ py_str counter ++ lit ".json".

(** Lines 165-168, the [while filepath.exists()] loop.  [fuel] bounds the
    number of turns; [probe_enough_fuel] shows that the number of files
    in the directory is always enough, so [ProbeUnfinished] is never
    raised by [choose_filename]. *)
Fixpoint probe (fuel : nat) (safe_title filename : str) (counter : Z)
  : M str :=
  taken ← path_exists filename;
  if taken : bool then
    match fuel with
    | O => raise ProbeUnfinished
    | S fuel' =>
        probe fuel' safe_title (numbered_filename safe_title counter)
              (counter + 1)
    end
  else mret filename.

(** Lines 160-168. *)
Definition choose_filename (safe_title : str) : M str := λ w,
  probe (size (files w)) safe_title (first_filename safe_title) 1 w.

(** Lines 180-187: the progress report.  Only what can raise is kept;
    the computed figures are printed and dropped. *)
Definition progress_update (cfg : Config) (target : option pyfloat)
    (st : Locals) : result unit :=
  if decide (articles_saved st `mod` 10 = 0) then
    size_mb_current ← int_truediv (total_size_bytes st) (1024 * 1024);
    if size_mb_truthy cfg then
      progress ← int_truediv_target (total_size_bytes st) target;
      Ok ()
    else
      progress ← int_truediv_count (articles_saved st) (article_count cfg);
      Ok ()
  else Ok ().

(** Lines 145-187: the body of the loop after the two stop checks. *)
Definition loop_body (cfg : Config) (target : option pyfloat)
    (article : Article) (st : Locals) : M Locals :=
  empty ← lift (no_text article);
  if empty : bool then mret (skip st) else
  stub ← lift (very_short article);
  if stub : bool then mret (skip st) else
  rag_article ← lift (convert_to_rag_format article);
  let safe_title := clean_article_title (art_title article) in
  filename ← choose_filename safe_title;
  _ ← write_file filename (ArticleFile rag_article);
  text ← lift (subscript_text article);
  let st' := saved (estimate_size text) st in
  _ ← lift (progress_update cfg target st');
  mret st'.

(** Lines 138-187: [for article in dataset].  The record is taken from
    the stream first; the stop checks are the first statements of the
    body. *)
Fixpoint stream (cfg : Config) (target : option pyfloat)
    (dataset : list pull) (st : Locals) : M Locals :=
  match dataset with
  | [] => mret st
  | Interrupt :: _ => raise KeyboardInterrupt
  | Yield article :: rest =>
      _ ← count_pull;
      by_size ← lift (size_reached cfg target st);
      if by_size : bool then mret st else
      by_count ← lift (count_reached cfg st);
      if by_count : bool then mret st else
      st' ← loop_body cfg target article st;
      stream cfg target rest st'
  end.

(** Lines 190-200. *)
Definition final_statistics (cfg : Config) (st : Locals) : result Stats :=
  final_size_mb ← int_truediv (total_size_bytes st) (1024 * 1024);
  avg_size_kb ←
    (if 0 <? articles_saved st then
       per_article ← int_truediv (total_size_bytes st) (articles_saved st);
       kb ← float_truediv_int per_article 1024;
       Ok (PyFloat kb)
     else Ok (PyInt 0));
  Ok {| stats_articles_saved := articles_saved st;
        stats_articles_skipped := articles_skipped st;
        stats_total_size_mb := final_size_mb;
        stats_average_article_size_kb := avg_size_kb;
        stats_output_directory := output_dir cfg;
        stats_language := language cfg |}.

Definition initial_locals : Locals :=
  {| total_size_bytes := 0; articles_saved := 0; articles_skipped := 0 |}.

(** [fetch_wikipedia_dataset], lines 76-210.  [dataset] is what
    [load_dataset] answers for the language and split of [cfg]: the
    stream, or [None] when loading fails. *)
Definition fetch_wikipedia_dataset (cfg : Config)
    (dataset : option (list pull)) : M Stats :=
  if bool_decide (size_mb cfg = None ∧ article_count cfg = None)
  then raise ValueError else
  if bool_decide (size_mb cfg ≠ None ∧ article_count cfg ≠ None)
  then raise ValueError else
  _ ← mkdir;
  records ← match dataset with
            | Some records => mret records
            | None => raise (SystemExit 1)
            end;
  let target := target_size_bytes cfg in
  st ← stream cfg target records initial_locals;
  lift (final_statistics cfg st).

(** ** The command line *)

Definition metadata_filename : str := lit "_fetch_metadata.json".

(** [main], lines 213-298, after [parse_args]: the exit status of the
    process and the world it leaves.  The mutually exclusive, required
    group of argparse ends the process with status 2. *)
Definition main (args : Config) (dataset : option (list pull))
    (w : World) : Z * World :=
  if bool_decide (size_mb args = None ∧ article_count args = None)
  then (2, w) else
  if bool_decide (size_mb args ≠ None ∧ article_count args ≠ None)
  then (2, w) else
  match fetch_wikipedia_dataset args dataset w with
  | (Ok stats, w') =>
      (0, (write_file metadata_filename (MetadataFile stats) w').2)
  | (Raise KeyboardInterrupt, w') => (1, w')
  | (Raise (SystemExit code), w') => (code, w')
  | (Raise _, w') => (1, w')
  end.

(** * Properties *)

(** ** File names *)

Definition is_unsafe (c : N) : bool := bool_decide (c ∈ unsafe_chars).

Lemma replace_each_fmap (chars : list N) (new : N) (title : str) :
  foldl (λ cleaned char, str_replace char new cleaned) title chars
  = (λ c, foldl (λ x char, if decide (x = char) then new else x) c chars)
    <$> title.
Proof.
  revert title. induction chars as [|char chars IH]; intros title; simpl.
  - by rewrite list_fmap_id.
  - rewrite IH. unfold str_replace. by rewrite <- list_fmap_compose.
Qed.

Lemma replace_each_char (chars : list N) (new c : N) :
  foldl (λ x char, if decide (x = char) then new else x) c chars
  = if bool_decide (c ∈ chars) then new else c.
Proof.
  revert c. induction chars as [|char chars IH]; intros c; cbn [foldl].
  - rewrite bool_decide_eq_false_2; [done | apply not_elem_of_nil].
  - rewrite IH. destruct (decide (c = char)) as [->|Hne].
    + rewrite (bool_decide_eq_true_2 (char ∈ char :: chars))
        by apply list_elem_of_here.
      by destruct (bool_decide (new ∈ chars)).
    + destruct (decide (c ∈ chars)) as [Hin|Hout].
      * rewrite (bool_decide_eq_true_2 (c ∈ chars)) by done.
        by rewrite bool_decide_eq_true_2 by by apply list_elem_of_further.
      * rewrite (bool_decide_eq_false_2 (c ∈ chars)) by done.
        rewrite bool_decide_eq_false_2; [done|].
        rewrite elem_of_cons. intros [?|?]; done.
Qed.

Lemma clean_article_title_fmap (title : str) :
  clean_article_title title
  = (λ c, if is_unsafe c then underscore else c) <$> title.
Proof.
  unfold clean_article_title. rewrite replace_each_fmap.
  apply list_fmap_ext; intros _ c _. apply replace_each_char.
Qed.

Lemma clean_article_title_length (title : str) :
  length (clean_article_title title) = length title.
Proof. rewrite clean_article_title_fmap. apply length_fmap. Qed.

Lemma clean_article_title_lookup (title : str) (i : nat) :
  clean_article_title title !! i
  = (λ c, if is_unsafe c then underscore else c) <$> (title !! i).
Proof. rewrite clean_article_title_fmap. apply list_lookup_fmap. Qed.

#[global] Instance N_of_ascii_inj : Inj (=) (=) Ascii.N_of_ascii.
Proof.
  intros a b Hab.
  rewrite <- (Ascii.ascii_N_embedding a), <- (Ascii.ascii_N_embedding b).
  by rewrite Hab.
Qed.

#[global] Instance lit_inj : Inj (=) (=) lit.
Proof.
  intros s1 s2 H. unfold lit in H.
  apply (list_fmap_eq_inj Ascii.N_of_ascii N_of_ascii_inj) in H.
  rewrite <- (String.string_of_list_ascii_of_string s1),
    <- (String.string_of_list_ascii_of_string s2). by rewrite H.
Qed.

(** The k-th name the writer tries for a title: [T.json], then
    [T_1.json], [T_2.json], ... *)
Definition candidate (safe_title : str) (k : nat) : str :=
  match k with
  | O => first_filename safe_title
  | S _ => numbered_filename safe_title (Z.of_nat k)
  end.

#[global] Instance candidate_inj safe_title : Inj (=) (=) (candidate safe_title).
Proof.
  intros [|i] [|j] H; unfold candidate, first_filename, numbered_filename in H;
    try done.
  - apply app_inv_head in H. discriminate H.
  - apply app_inv_head in H. discriminate H.
  - apply app_inv_head in H. apply (app_inv_head (lit "_")) in H.
    apply app_inv_tail in H. unfold py_str in H.
    apply (inj lit) in H. apply (inj pretty) in H. lia.
Qed.

Lemma probe_unfold fuel safe_title filename counter (w : World) :
  probe fuel safe_title filename counter w
  = if bool_decide (is_Some (files w !! filename)) then
      match fuel with
      | O => (Raise ProbeUnfinished, w)
      | S fuel' =>
          probe fuel' safe_title (numbered_filename safe_title counter)
                (counter + 1) w
      end
    else (Ok filename, w).
Proof.
  destruct fuel; simpl; unfold mbind, M_bind, path_exists;
    case_bool_decide; reflexivity.
Qed.

(** What the probing loop returns when it starts at the k-th name. *)
Lemma probe_spec fuel safe_title (k : nat) (w : World) :
  (∃ j : nat, (j ≤ fuel)%nat
     ∧ probe fuel safe_title (candidate safe_title k) (Z.of_nat (S k)) w
       = (Ok (candidate safe_title (k + j)), w)
     ∧ files w !! candidate safe_title (k + j) = None
     ∧ ∀ i : nat, (i < j)%nat →
         is_Some (files w !! candidate safe_title (k + i)))
  ∨ (probe fuel safe_title (candidate safe_title k) (Z.of_nat (S k)) w
       = (Raise ProbeUnfinished, w)
     ∧ ∀ i : nat, (i ≤ fuel)%nat →
         is_Some (files w !! candidate safe_title (k + i))).
Proof.
  revert k. induction fuel as [|fuel IH]; intros k; rewrite probe_unfold;
    case_bool_decide as Htaken.
  - right. split; [done|]. intros i Hi. replace (k + i)%nat with k by lia. done.
  - left. exists 0%nat. rewrite Nat.add_0_r. repeat split; [lia | | lia].
    by apply eq_None_not_Some.
  - replace (numbered_filename safe_title (Z.of_nat (S k)))
      with (candidate safe_title (S k)) by reflexivity.
    replace (Z.of_nat (S k) + 1) with (Z.of_nat (S (S k))) by lia.
    destruct (IH (S k)) as [(j & Hj & Hrun & Hfree & Hbelow)|[Hrun Hall]].
    + left. exists (S j). replace (k + S j)%nat with (S k + j)%nat by lia.
      repeat split; [lia | done | done |].
      intros [|i] Hi; [by rewrite Nat.add_0_r|].
      replace (k + S i)%nat with (S k + i)%nat by lia. apply Hbelow. lia.
    + right. split; [done|].
      intros [|i] Hi; [by rewrite Nat.add_0_r|].
      replace (k + S i)%nat with (S k + i)%nat by lia. apply Hall. lia.
  - left. exists 0%nat. rewrite Nat.add_0_r. repeat split; [lia | | lia].
    by apply eq_None_not_Some.
Qed.

(** A directory cannot hold more names than it has files. *)
Lemma names_bounded {V} (m : gmap str V) (f : nat → str) (n : nat) :
  Inj (=) (=) f →
  (∀ i : nat, (i ≤ n)%nat → is_Some (m !! f i)) →
  (n < size m)%nat.
Proof.
  intros Hinj Hall.
  assert (f <$> seq 0 (S n) ⊆+ elements (dom m)) as Hsub.
  { apply NoDup_submseteq.
    - apply NoDup_fmap_2; [done | apply NoDup_seq].
    - intros x (i & -> & Hi)%list_elem_of_fmap.
      apply elem_of_seq in Hi. apply elem_of_elements, elem_of_dom, Hall. lia. }
  apply submseteq_length in Hsub.
  rewrite length_fmap, length_seq in Hsub.
  rewrite <- size_dom. unfold size at 1, set_size; simpl. lia.
Qed.

(** The probing loop always ends: the size of the directory is fuel
    enough.  It returns the first name of the sequence that is free. *)
Lemma probe_enough_fuel safe_title (w : World) :
  ∃ k : nat,
    choose_filename safe_title w = (Ok (candidate safe_title k), w)
    ∧ files w !! candidate safe_title k = None
    ∧ ∀ i : nat, (i < k)%nat → is_Some (files w !! candidate safe_title i).
Proof.
  unfold choose_filename.
  destruct (probe_spec (size (files w)) safe_title 0 w)
    as [(j & _ & Hrun & Hfree & Hbelow)|[_ Hall]].
  - exists j. done.
  - apply names_bounded in Hall; [lia | apply _].
Qed.

(** More fuel does not change the answer. *)
Lemma probe_fuel_irrelevant fuel safe_title (w : World) :
  (size (files w) ≤ fuel)%nat →
  probe fuel safe_title (first_filename safe_title) 1 w
  = choose_filename safe_title w.
Proof.
  intros Hfuel.
  destruct (probe_enough_fuel safe_title w) as (k & -> & Hfree & Hbelow).
  destruct (probe_spec fuel safe_title 0 w)
    as [(j & _ & Hrun & Hfree' & Hbelow')|[_ Hall]].
  - change (Z.of_nat 1) with 1 in Hrun. simpl in Hrun, Hfree', Hbelow'.
    rewrite Hrun. do 2 f_equal.
    destruct (Nat.lt_trichotomy j k) as [Hlt|[->|Hlt]]; [|done|].
    + apply Hbelow in Hlt. rewrite Hfree' in Hlt. by destruct Hlt.
    + apply Hbelow' in Hlt. rewrite Hfree in Hlt. by destruct Hlt.
  - apply names_bounded in Hall; [lia | apply _].
Qed.

(** ** One turn of the loop *)

(** A record the two length checks of the loop let through. *)
Definition admissible (article : Article) : bool :=
  match art_text article with
  | Some text => negb (len (strip text) <? 100) && negb (len text <? 500)
  | None => false
  end.

(** The world once [content] is stored under [filename]. *)
Definition with_file (filename : str) (content : File) (w : World) : World :=
  (write_file filename content w).2.

(** What the loop hands on after a write: the new totals, unless the
    progress report raises. *)
Definition after_progress (cfg : Config) (target : option pyfloat)
    (st' : Locals) : result Locals :=
  match progress_update cfg target st' with
  | Ok _ => Ok st'
  | Raise e => Raise e
  end.

Lemma strip_nil : strip [] = [].
Proof. reflexivity. Qed.

Lemma admissible_checks (article : Article) :
  admissible article = false ↔
  no_text article = Ok true
  ∨ (no_text article = Ok false ∧ very_short article = Ok true).
Proof.
  unfold admissible, no_text, very_short, subscript_text.
  destruct (art_text article) as [[|c text]|]; simpl.
  - split; [by left | done].
  - destruct (len (strip (c :: text)) <? 100); simpl.
    + split; [by left | done].
    + destruct (len (c :: text) <? 500); simpl.
      * split; [by right | done].
      * split; [done | intros [?|[_ ?]]; done].
  - split; [by left | done].
Qed.

Lemma loop_body_reject cfg target article st (w : World) :
  admissible article = false →
  loop_body cfg target article st w = (Ok (skip st), w).
Proof.
  intros [Hno|[Hno Hshort]]%admissible_checks; unfold loop_body.
  - unfold mbind, M_bind, lift. rewrite Hno. reflexivity.
  - unfold mbind, M_bind, lift. rewrite Hno, Hshort. reflexivity.
Qed.

Lemma loop_body_accept cfg target article st (w : World) :
  admissible article = true →
  ∃ (k : nat) (text : str) (doc : RagArticle),
    art_text article = Some text
    ∧ convert_to_rag_format article = Ok doc
    ∧ files w !! candidate (clean_article_title (art_title article)) k = None
    ∧ (∀ i : nat, (i < k)%nat →
         is_Some (files w !! candidate (clean_article_title (art_title article)) i))
    ∧ loop_body cfg target article st w
      = (after_progress cfg target (saved (estimate_size text) st),
         with_file (candidate (clean_article_title (art_title article)) k)
                   (ArticleFile doc) w).
Proof.
  intros Hadm.
  destruct (probe_enough_fuel (clean_article_title (art_title article)) w)
    as (k & Hchoose & Hfree & Hbelow).
  unfold admissible in Hadm.
  destruct (art_text article) as [text|] eqn:Htext; [|done].
  apply andb_true_iff in Hadm as [Hstrip%negb_true_iff Hlen%negb_true_iff].
  assert (no_text article = Ok false) as Hno.
  { unfold no_text, subscript_text. rewrite Htext.
    destruct text; [by rewrite strip_nil in Hstrip|]. simpl. by rewrite Hstrip. }
  assert (very_short article = Ok false) as Hshort.
  { unfold very_short, subscript_text. rewrite Htext. simpl. by rewrite Hlen. }
  assert (subscript_text article = Ok text) as Hsub.
  { unfold subscript_text. by rewrite Htext. }
  eexists k, text, _. split; [done|]. split.
  { unfold convert_to_rag_format. rewrite Hsub. reflexivity. }
  split; [done|]. split; [done|].
  unfold loop_body, mbind, M_bind, lift. rewrite Hno, Hshort.
  unfold convert_to_rag_format at 1. rewrite Hsub. simpl.
  rewrite Hchoose. simpl. rewrite ?Hsub. unfold after_progress.
  destruct (progress_update cfg target _); reflexivity.
Qed.

(** ** The loop as a whole *)

(** The world once one more record has been taken from the stream. *)
Definition pulled_one (w : World) : World := (count_pull w).2.

Lemma stream_yield cfg target article rest st (w : World) :
  stream cfg target (Yield article :: rest) st w
  = match size_reached cfg target st with
    | Raise e => (Raise e, pulled_one w)
    | Ok true => (Ok st, pulled_one w)
    | Ok false =>
        match count_reached cfg st with
        | Raise e => (Raise e, pulled_one w)
        | Ok true => (Ok st, pulled_one w)
        | Ok false =>
            match loop_body cfg target article st (pulled_one w) with
            | (Ok st', w') => stream cfg target rest st' w'
            | (Raise e, w') => (Raise e, w')
            end
        end
    end.
Proof.
  simpl. unfold mbind, M_bind, lift, count_pull, pulled_one; simpl.
  destruct (size_reached cfg target st) as [[|]|]; try reflexivity.
  destruct (count_reached cfg st) as [[|]|]; reflexivity.
Qed.

(** How a run may change the world: the directory only gains files,
    every file that was there keeps its contents, every new file is a
    document, and the stream only moves forward. *)
Record extends (w w' : World) : Prop := {
  ext_dir : dir_exists w' = dir_exists w;
  ext_kept : files w ⊆ files w';
  ext_new : ∀ f c, files w' !! f = Some c →
            files w !! f = Some c ∨ ∃ doc, c = ArticleFile doc;
  ext_pulled : (pulled w ≤ pulled w')%nat;
}.

Lemma extends_refl w : extends w w.
Proof. split; [done | done | by left | done]. Qed.

Lemma extends_trans w1 w2 w3 : extends w1 w2 → extends w2 w3 → extends w1 w3.
Proof.
  intros [Hd1 Hk1 Hn1 Hp1] [Hd2 Hk2 Hn2 Hp2]. split.
  - congruence.
  - by transitivity (files w2).
  - intros f c Hf. destruct (Hn2 f c Hf) as [Hf2|?]; [by apply Hn1 | by right].
  - lia.
Qed.

Lemma extends_pulled_one w : extends w (pulled_one w).
Proof. split; simpl; [done | done | by left | lia]. Qed.

Lemma extends_with_file filename doc w :
  files w !! filename = None →
  extends w (with_file filename (ArticleFile doc) w).
Proof.
  intros Hfree. split; simpl; [done | by apply insert_subseteq | | done].
  intros f c. rewrite lookup_insert. case_decide; [|by left].
  intros [= <-]. right. by exists doc.
Qed.

Lemma loop_body_extends cfg target article st (w : World) :
  extends w (loop_body cfg target article st w).2.
Proof.
  destruct (admissible article) eqn:Hadm.
  - destruct (loop_body_accept cfg target article st w Hadm)
      as (k & text & doc & _ & _ & Hfree & _ & ->).
    by apply extends_with_file.
  - rewrite loop_body_reject by done. apply extends_refl.
Qed.

Lemma stream_extends cfg target dataset st (w : World) :
  extends w (stream cfg target dataset st w).2.
Proof.
  revert st w. induction dataset as [|[article|] rest IH]; intros st w.
  - apply extends_refl.
  - rewrite stream_yield.
    destruct (size_reached cfg target st) as [[|]|];
      try apply extends_pulled_one.
    destruct (count_reached cfg st) as [[|]|];
      try apply extends_pulled_one.
    pose proof (loop_body_extends cfg target article st (pulled_one w)) as Hbody.
    destruct (loop_body cfg target article st (pulled_one w)) as [[st'|e] w'].
    + eapply extends_trans; [apply extends_pulled_one|].
      eapply extends_trans; [apply Hbody | apply IH].
    + eapply extends_trans; [apply extends_pulled_one | apply Hbody].
  - apply extends_refl.
Qed.

(** ** Runs with a count target *)

(** The number of records of a list that pass the two length checks. *)
Definition admissible_count (records : list Article) : Z :=
  Z.of_nat (length (List.filter admissible records)).

Lemma admissible_count_cons article records :
  admissible_count (article :: records)
  = (if admissible article then 1 else 0) + admissible_count records.
Proof.
  unfold admissible_count; simpl. destruct (admissible article); simpl; lia.
Qed.

Lemma admissible_count_nonneg records : 0 ≤ admissible_count records.
Proof. unfold admissible_count. lia. Qed.

Section count_target.
Variables (cfg : Config) (N : Z).
Hypothesis Hsize : size_mb cfg = None.
Hypothesis Hcount : article_count cfg = Some N.
Hypothesis Hpos : 0 < N.

Lemma count_size_reached target st : size_reached cfg target st = Ok false.
Proof using Hsize. unfold size_reached, size_mb_truthy. by rewrite Hsize. Qed.

Lemma count_count_reached st :
  count_reached cfg st = Ok (N <=? articles_saved st).
Proof using Hcount Hpos.
  unfold count_reached, article_count_truthy. rewrite Hcount.
  destruct (Z.eqb_spec N 0); [lia | reflexivity].
Qed.

Lemma count_progress target st : progress_update cfg target st = Ok ().
Proof using Hsize Hcount Hpos.
  unfold progress_update, size_mb_truthy. rewrite Hsize, Hcount.
  case_decide; [|done]. unfold int_truediv_count, int_truediv.
  rewrite !decide_False by lia. reflexivity.
Qed.

(** The loop under a count target: it ends normally, having saved
    every admissible record up to the N-th and no more. *)
Lemma stream_count target records st (w : World) :
  0 ≤ articles_saved st ≤ N →
  ∃ st' w',
    stream cfg target (Yield <$> records) st w = (Ok st', w')
    ∧ articles_saved st'
      = Z.min N (articles_saved st + admissible_count records)
    ∧ Z.of_nat (size (files w'))
      = Z.of_nat (size (files w)) + (articles_saved st' - articles_saved st)
    ∧ articles_skipped st ≤ articles_skipped st'.
Proof using Hsize Hcount Hpos.
  revert st w. induction records as [|article records IH]; intros st w Hst.
  - exists st, w. pose proof (admissible_count_nonneg []).
    unfold admissible_count in *. simpl. repeat split; lia.
  - rewrite fmap_cons, stream_yield, count_size_reached, count_count_reached.
    pose proof (admissible_count_nonneg (article :: records)).
    destruct (Z.leb_spec N (articles_saved st)) as [Hfull|Hroom].
    { exists st, (pulled_one w). simpl. repeat split; lia. }
    rewrite admissible_count_cons in *.
    destruct (admissible article) eqn:Hadm.
    + destruct (loop_body_accept cfg target article st (pulled_one w) Hadm)
        as (k & text & doc & _ & _ & Hfree & _ & ->).
      unfold after_progress. rewrite count_progress.
      destruct (IH (saved (estimate_size text) st)
                   (with_file (candidate (clean_article_title
                      (art_title article)) k) (ArticleFile doc)
                      (pulled_one w)))
        as (st' & w' & -> & Hsaved & Hfiles & Hskip); [simpl; lia|].
      exists st', w'. simpl in *.
      rewrite map_size_insert_None in Hfiles by done.
      repeat split; lia.
    + rewrite loop_body_reject by done.
      destruct (IH (skip st) (pulled_one w))
        as (st' & w' & -> & Hsaved & Hfiles & Hskip); [simpl; lia|].
      exists st', w'. simpl in *. repeat split; lia.
Qed.
End count_target.

(** ** Runs with a byte target *)

(** The number of bytes of the UTF-8 encoding of the text of a record:
    the byte size of the content of the document written for it. *)
Definition article_bytes (article : Article) : Z :=
  Z.of_nat (length (utf8_encode (default [] (art_text article)))).

(** [estimate_size] counts the bytes of the encoding. *)
Lemma estimate_size_utf8 (text : str) :
  estimate_size text = Z.of_nat (length (utf8_encode text)).
Proof.
  induction text as [|c text IH]; simpl; [done|].
  rewrite length_app, Nat2Z.inj_add, IH. f_equal.
  unfold utf8_width, utf8_encode_char. repeat case_match; reflexivity.
Qed.

Lemma article_bytes_nonneg article : 0 ≤ article_bytes article.
Proof. unfold article_bytes. lia. Qed.

Lemma bytes_of_nonneg_aux (f : Article → Z) records :
  (∀ a, 0 ≤ f a) → 0 ≤ foldr (λ article acc, f article + acc) 0 records.
Proof.
  intros Hf. induction records as [|a records IH]; simpl; [lia|].
  pose proof (Hf a). lia.
Qed.

Definition bytes_of (records : list Article) : Z :=
  foldr (λ article acc, article_bytes article + acc) 0 records.

(** The byte threshold of the specification: T megabytes are T·2^20. *)
Definition megabytes (T : Q) : Q := (T * inject_Z (2 ^ 20))%Q.

Lemma target_megabytes (T : Q) (n : Z) :
  Qle_bool (T * inject_Z 1024 * inject_Z 1024) (inject_Z n) = true
  ↔ (megabytes T <= inject_Z n)%Q.
Proof.
  rewrite Qle_bool_iff. unfold megabytes.
  assert (T * inject_Z 1024 * inject_Z 1024 == T * inject_Z (2 ^ 20))%Q as ->.
  { rewrite <- Qmult_assoc, <- inject_Z_mult. reflexivity. }
  reflexivity.
Qed.

Lemma float_overflow_pos : (0 < float_overflow)%Q.
Proof. reflexivity. Qed.

Lemma float_mul_1024_finite (q : Q) :
  (- float_overflow < q * inject_Z 1024)%Q →
  (q * inject_Z 1024 < float_overflow)%Q →
  float_mul_1024 (Ffin q) = Ffin (q * inject_Z 1024).
Proof.
  intros Hlow Hhigh. unfold float_mul_1024. cbv zeta.
  assert (Qle_bool float_overflow (q * inject_Z 1024) = false) as ->.
  { apply not_true_iff_false. rewrite Qle_bool_iff.
    by apply Qlt_not_le. }
  assert (Qle_bool (q * inject_Z 1024) (- float_overflow) = false) as ->.
  { apply not_true_iff_false. rewrite Qle_bool_iff.
    by apply Qlt_not_le. }
  reflexivity.
Qed.

Lemma float_mul_1024_infinite (q : Q) :
  (float_overflow <= q * inject_Z 1024)%Q →
  float_mul_1024 (Ffin q) = Finf.
Proof.
  intros Hhigh. unfold float_mul_1024. cbv zeta.
  by rewrite (proj2 (Qle_bool_iff _ _) Hhigh).
Qed.

Lemma float_mul_1024_minus_infinite (q : Q) :
  (q * inject_Z 1024 <= - float_overflow)%Q →
  float_mul_1024 (Ffin q) = Fninf.
Proof.
  intros Hlow. unfold float_mul_1024. cbv zeta.
  assert (Qle_bool float_overflow (q * inject_Z 1024) = false) as ->.
  { apply not_true_iff_false. rewrite Qle_bool_iff. apply Qlt_not_le.
    eapply Qle_lt_trans; [apply Hlow|].
    pose proof float_overflow_pos. lra. }
  by rewrite (proj2 (Qle_bool_iff _ _) Hlow).
Qed.

(** The target of a positive size: the threshold itself when it is a
    finite float, infinity when the product overflows. *)
Lemma positive_target (T : Q) :
  (0 < T)%Q →
  ((megabytes T < float_overflow)%Q
   ∧ float_mul_1024 (float_mul_1024 (Ffin T))
     = Ffin (T * inject_Z 1024 * inject_Z 1024))
  ∨ ((float_overflow <= megabytes T)%Q
     ∧ float_mul_1024 (float_mul_1024 (Ffin T)) = Finf).
Proof.
  intros Hpos. pose proof float_overflow_pos as Hbound.
  assert (megabytes T == T * inject_Z 1024 * inject_Z 1024)%Q as Hmb.
  { unfold megabytes. rewrite <- Qmult_assoc, <- inject_Z_mult. reflexivity. }
  assert (0 < T * inject_Z 1024)%Q as Hpos1.
  { apply Qmult_lt_0_compat; done. }
  assert (T * inject_Z 1024 <= T * inject_Z 1024 * inject_Z 1024)%Q as Hgrow.
  { rewrite <- (Qmult_1_r (T * inject_Z 1024)) at 1.
    apply Qmult_le_l; done. }
  destruct (Qlt_le_dec (T * inject_Z 1024) float_overflow) as [Hfin1|Hinf1].
  - rewrite (float_mul_1024_finite T) by (done || lra).
    destruct (Qlt_le_dec (T * inject_Z 1024 * inject_Z 1024) float_overflow)
      as [Hfin2|Hinf2].
    + left. split; [by rewrite Hmb|].
      apply float_mul_1024_finite; [|done].
      eapply Qlt_trans; [|apply Qmult_lt_0_compat; done]. lra.
    + right. split; [by rewrite Hmb|]. by apply float_mul_1024_infinite.
  - right. split; [rewrite Hmb; lra|].
    by rewrite (float_mul_1024_infinite T).
Qed.

Section byte_target.
Variables (cfg : Config) (T : Q).
Hypothesis Hsize : size_mb cfg = Some (Ffin T).
Hypothesis Hcount : article_count cfg = None.
Hypothesis Hpos : (0 < T)%Q.
Hypothesis Hfinite : (megabytes T < float_overflow)%Q.

Lemma byte_truthy : float_truthy (Ffin T) = true.
Proof using Hpos.
  simpl. apply negb_true_iff, not_true_iff_false.
  rewrite Qeq_bool_iff. intros Heq. rewrite Heq in Hpos.
  by apply Qlt_irrefl in Hpos.
Qed.

Lemma byte_target :
  target_size_bytes cfg = Some (Ffin (T * inject_Z 1024 * inject_Z 1024)).
Proof using Hsize Hpos Hfinite.
  unfold target_size_bytes. rewrite Hsize, byte_truthy. f_equal.
  destruct (positive_target T Hpos) as [[_ ?]|[Hinf _]]; [done|].
  by apply Qle_not_lt in Hinf.
Qed.

Lemma byte_size_reached st :
  size_reached cfg (target_size_bytes cfg) st
  = Ok (Qle_bool (T * inject_Z 1024 * inject_Z 1024)
                 (inject_Z (total_size_bytes st))).
Proof using Hsize Hpos Hfinite.
  unfold size_reached, size_mb_truthy.
  rewrite byte_target, Hsize, byte_truthy. reflexivity.
Qed.

Lemma byte_count_reached st : count_reached cfg st = Ok false.
Proof using Hcount.
  unfold count_reached, article_count_truthy. by rewrite Hcount.
Qed.

Lemma byte_progress st :
  progress_update cfg (target_size_bytes cfg) st = Ok ().
Proof using Hsize Hpos Hfinite.
  unfold progress_update, size_mb_truthy.
  rewrite byte_target, Hsize, byte_truthy.
  case_decide; [|done]. unfold int_truediv, int_truediv_target.
  rewrite decide_False by lia.
  assert (float_truthy (Ffin (T * inject_Z 1024 * inject_Z 1024)) = true)
    as ->; [|reflexivity].
  simpl. apply negb_true_iff, not_true_iff_false.
  rewrite Qeq_bool_iff. intros Heq.
  assert (0 < T * inject_Z 1024 * inject_Z 1024)%Q as Hlt.
  { repeat apply Qmult_lt_0_compat; done. }
  rewrite Heq in Hlt. by apply Qlt_irrefl in Hlt.
Qed.

(** The loop under a byte target: it ends normally; what it writes is
    a prefix [written] of the admissible records, as short as the
    threshold allows. *)
Lemma stream_bytes records st (w : World) :
  ∃ st' w' written rest,
    stream cfg (target_size_bytes cfg) (Yield <$> records) st w = (Ok st', w')
    ∧ List.filter admissible records = written ++ rest
    ∧ articles_saved st' = articles_saved st + Z.of_nat (length written)
    ∧ total_size_bytes st' = total_size_bytes st + bytes_of written
    ∧ (∀ n : nat, (n < length written)%nat →
         (inject_Z (total_size_bytes st + bytes_of (take n written))
          < megabytes T)%Q)
    ∧ (rest ≠ [] → (megabytes T <= inject_Z (total_size_bytes st'))%Q)
    ∧ Z.of_nat (size (files w'))
      = Z.of_nat (size (files w)) + Z.of_nat (length written).
Proof using Hsize Hcount Hpos Hfinite.
  revert st w. induction records as [|article records IH]; intros st w.
  - exists st, w, [], []. simpl.
    repeat split; try lia; try done; intros n Hn; simpl in Hn; lia.
  - rewrite fmap_cons, stream_yield, byte_size_reached.
    destruct (Qle_bool _ _) eqn:Hstop.
    { apply target_megabytes in Hstop.
      exists st, (pulled_one w), [], (List.filter admissible (article :: records)).
      simpl.
      repeat split; try lia; try done; intros n Hn; simpl in Hn; lia. }
    assert (inject_Z (total_size_bytes st) < megabytes T)%Q as Hbelow.
    { apply Qnot_le_lt. rewrite <- target_megabytes. by rewrite Hstop. }
    rewrite byte_count_reached. simpl List.filter.
    destruct (admissible article) eqn:Hadm.
    + destruct (loop_body_accept cfg (target_size_bytes cfg) article st
                  (pulled_one w) Hadm)
        as (k & text & doc & Htext & _ & Hfree & _ & ->).
      unfold after_progress. rewrite byte_progress.
      destruct (IH (saved (estimate_size text) st)
                   (with_file (candidate (clean_article_title
                      (art_title article)) k) (ArticleFile doc)
                      (pulled_one w)))
        as (st' & w' & written & rest & -> & -> & Hsaved & Htotal
            & Hprefix & Hrest & Hfiles).
      assert (article_bytes article = estimate_size text) as Hbytes.
      { unfold article_bytes. by rewrite Htext, estimate_size_utf8. }
      exists st', w', (article :: written), rest. simpl in *.
      rewrite map_size_insert_None in Hfiles by done.
      rewrite Hbytes. repeat split; try lia; try done.
      intros [|n] Hn; simpl.
      * by rewrite Z.add_0_r.
      * rewrite Hbytes, Z.add_assoc. apply Hprefix. lia.
    + rewrite loop_body_reject by done.
      destruct (IH (skip st) (pulled_one w))
        as (st' & w' & written & rest & -> & -> & Hsaved & Htotal
            & Hprefix & Hrest & Hfiles).
      exists st', w', written, rest. simpl in *. repeat split; try lia; done.
Qed.
End byte_target.

Lemma bytes_of_nonneg records : 0 ≤ bytes_of records.
Proof. apply bytes_of_nonneg_aux, article_bytes_nonneg. Qed.

Lemma bytes_of_app (l1 l2 : list Article) :
  bytes_of (l1 ++ l2) = bytes_of l1 + bytes_of l2.
Proof. induction l1 as [|a l1 IH]; simpl; lia. Qed.

Lemma bytes_of_take_le (n : nat) records :
  bytes_of (take n records) ≤ bytes_of records.
Proof.
  rewrite <- (take_drop n records) at 2. rewrite bytes_of_app.
  pose proof (bytes_of_nonneg (drop n records)). lia.
Qed.

(** ** A loop whose stop checks are never true *)

Section never_stops.
Variables (cfg : Config) (target : option pyfloat).
Hypothesis Hsize : ∀ st, size_reached cfg target st = Ok false.
Hypothesis Hcount : ∀ st, count_reached cfg st = Ok false.
Hypothesis Hprogress : ∀ st, progress_update cfg target st = Ok ().

Lemma stream_never_stops records st (w : World) :
  ∃ st' w',
    stream cfg target (Yield <$> records) st w = (Ok st', w')
    ∧ articles_saved st' = articles_saved st + admissible_count records
    ∧ articles_skipped st'
      = articles_skipped st
        + (Z.of_nat (length records) - admissible_count records)
    ∧ pulled w' = (pulled w + length records)%nat
    ∧ total_size_bytes st'
      = total_size_bytes st + bytes_of (List.filter admissible records)
    ∧ Z.of_nat (size (files w'))
      = Z.of_nat (size (files w)) + admissible_count records.
Proof using Hsize Hcount Hprogress.
  revert st w. induction records as [|article records IH]; intros st w.
  - exists st, w. unfold admissible_count. simpl. repeat split; lia.
  - rewrite fmap_cons, stream_yield, Hsize, Hcount.
    rewrite admissible_count_cons. simpl List.filter.
    destruct (admissible article) eqn:Hadm.
    + destruct (loop_body_accept cfg target article st (pulled_one w) Hadm)
        as (k & text & doc & Htext & _ & Hfree & _ & ->).
      unfold after_progress. rewrite Hprogress.
      destruct (IH (saved (estimate_size text) st)
                   (with_file (candidate (clean_article_title
                      (art_title article)) k) (ArticleFile doc)
                      (pulled_one w)))
        as (st' & w' & -> & Hsaved & Hskip & Hpull & Htotal & Hfiles).
      assert (article_bytes article = estimate_size text) as Hbytes.
      { unfold article_bytes. by rewrite Htext, estimate_size_utf8. }
      exists st', w'. simpl in *.
      rewrite map_size_insert_None in Hfiles by done.
      repeat split; lia.
    + rewrite loop_body_reject by done.
      destruct (IH (skip st) (pulled_one w))
        as (st' & w' & -> & Hsaved & Hskip & Hpull & Htotal & Hfiles).
      exists st', w'. simpl in *. repeat split; lia.
Qed.
End never_stops.



(** ** Runs with a zero target *)

(** A target that is given but false as a condition: [size_mb] is a
    zero float, or [article_count] is 0. *)
Definition zero_target (cfg : Config) : Prop :=
  (∃ x, size_mb cfg = Some x ∧ float_truthy x = false
        ∧ article_count cfg = None)
  ∨ (size_mb cfg = None ∧ article_count cfg = Some 0).

Section zero_target.
Variable cfg : Config.
Hypothesis Hzero : zero_target cfg.

Lemma zero_size_truthy : size_mb_truthy cfg = false.
Proof using Hzero.
  unfold size_mb_truthy.
  destruct Hzero as [(x & -> & Hx & _)|[-> _]]; done.
Qed.

Lemma zero_count_truthy : article_count_truthy cfg = false.
Proof using Hzero.
  unfold article_count_truthy.
  destruct Hzero as [(x & _ & _ & ->)|[_ ->]]; done.
Qed.

Lemma zero_size_reached target st : size_reached cfg target st = Ok false.
Proof using Hzero. unfold size_reached. by rewrite zero_size_truthy. Qed.

Lemma zero_count_reached st : count_reached cfg st = Ok false.
Proof using Hzero. unfold count_reached. by rewrite zero_count_truthy. Qed.

Lemma zero_progress target st :
  articles_saved st `mod` 10 ≠ 0 → progress_update cfg target st = Ok ().
Proof. intros Hmod. unfold progress_update. by rewrite decide_False. Qed.

End zero_target.

(** ** The whole run *)

(** Exactly one of the two targets is given. *)
Definition one_target (cfg : Config) : Prop :=
  (size_mb cfg = None ∧ article_count cfg ≠ None)
  ∨ (size_mb cfg ≠ None ∧ article_count cfg = None).

(** The world once the output directory is there. *)
Definition made_dir (w : World) : World := (mkdir w).2.

Lemma fetch_one_target cfg records (w : World) :
  one_target cfg →
  fetch_wikipedia_dataset cfg (Some records) w
  = match stream cfg (target_size_bytes cfg) records initial_locals
                 (made_dir w) with
    | (Ok st, w') => (final_statistics cfg st, w')
    | (Raise e, w') => (Raise e, w')
    end.
Proof.
  intros Hone. unfold fetch_wikipedia_dataset.
  rewrite !bool_decide_eq_false_2.
  - unfold mbind, M_bind, mkdir, made_dir, lift; simpl.
    destruct (stream _ _ _ _ _) as [[st|e] w']; reflexivity.
  - destruct Hone as [[-> ?]|[? ->]]; intros [? ?]; done.
  - destruct Hone as [[-> ?]|[? ->]]; intros [? ?]; done.
Qed.

(** The final statistics never raise: the division by the number of
    saved documents is only made when that number is positive. *)
Lemma final_statistics_ok cfg st :
  final_statistics cfg st
  = Ok {| stats_articles_saved := articles_saved st;
          stats_articles_skipped := articles_skipped st;
          stats_total_size_mb := IntDivInt (total_size_bytes st) (1024 * 1024);
          stats_average_article_size_kb :=
            if 0 <? articles_saved st
            then PyFloat (FloatDivInt
                   (IntDivInt (total_size_bytes st) (articles_saved st)) 1024)
            else PyInt 0;
          stats_output_directory := output_dir cfg;
          stats_language := language cfg |}.
Proof.
  unfold final_statistics, int_truediv, float_truediv_int.
  rewrite (decide_False (P := 1024 * 1024 = 0)) by lia. simpl.
  destruct (Z.ltb_spec 0 (articles_saved st)); simpl; [|reflexivity].
  rewrite decide_False by lia. simpl. reflexivity.
Qed.

(** The counters of the loop never go down. *)
Lemma loop_body_saved_nonneg cfg target article st st' (w w' : World) :
  loop_body cfg target article st w = (Ok st', w') →
  0 ≤ articles_saved st → 0 ≤ articles_saved st'.
Proof.
  intros Hrun Hst. destruct (admissible article) eqn:Hadm.
  - destruct (loop_body_accept cfg target article st w Hadm)
      as (k & text & doc & _ & _ & _ & _ & Heq).
    rewrite Heq in Hrun. unfold after_progress in Hrun.
    destruct (progress_update _ _ _); simplify_eq. simpl. lia.
  - rewrite loop_body_reject in Hrun by done. simplify_eq. done.
Qed.

Lemma stream_saved_nonneg cfg target dataset st st' (w w' : World) :
  stream cfg target dataset st w = (Ok st', w') →
  0 ≤ articles_saved st → 0 ≤ articles_saved st'.
Proof.
  revert st w. induction dataset as [|[article|] rest IH]; intros st w Hrun Hst.
  - simpl in Hrun. unfold mret, M_ret in Hrun. by simplify_eq.
  - rewrite stream_yield in Hrun.
    destruct (size_reached cfg target st) as [[|]|]; simplify_eq; try done.
    destruct (count_reached cfg st) as [[|]|]; simplify_eq; try done.
    destruct (loop_body cfg target article st (pulled_one w))
      as [[st1|e] w1] eqn:Hbody; [|done].
    eapply IH; [done|]. by eapply loop_body_saved_nonneg.
  - done.
Qed.

(** ** Sample data *)

(** A record with a title and a body of [n] letters. *)
Definition sample_article (title : string) (n : nat) : Article :=
  {| art_id := Some (lit "12");
     art_url := None;
     art_title := lit title;
     art_text := Some (replicate n 97%N) |}.

Definition empty_world : World :=
  {| dir_exists := false; files := ∅; pulled := 0 |}.

Definition sample_config (size : option pyfloat) (count : option Z) : Config :=
  {| output_dir := lit "data/wikipedia";
     size_mb := size;
     article_count := count;
     language := lit "simple";
     split := lit "train" |}.

Lemma fetch_ok_inv cfg dataset (w w' : World) stats :
  fetch_wikipedia_dataset cfg dataset w = (Ok stats, w') →
  ∃ records st,
    dataset = Some records
    ∧ stream cfg (target_size_bytes cfg) records initial_locals (made_dir w)
      = (Ok st, w')
    ∧ final_statistics cfg st = Ok stats.
Proof.
  unfold fetch_wikipedia_dataset. intros Hrun.
  case_bool_decide; [done|]. case_bool_decide; [done|].
  destruct dataset as [records|]; [|done].
  unfold mbind, M_bind, mkdir, lift in Hrun; simpl in Hrun.
  fold (made_dir w) in Hrun.
  destruct (stream _ _ _ _ _) as [[st|e] w1] eqn:Hstream; [|done].
  exists records, st. unfold made_dir, mkdir; simpl. by simplify_eq.
Qed.

Lemma accepted_admissible article :
  no_text article = Ok false → very_short article = Ok false →
  admissible article = true.
Proof.
  intros Hno Hshort. destruct (admissible article) eqn:Hadm; [done|].
  apply admissible_checks in Hadm as [?|[_ ?]]; congruence.
Qed.

(** ** The claims *)

(** C7. Configuration mutual exclusion: a run given both a size target
    and a count target fails with the configuration error of the script
    ([ValueError]), and so does a run given neither; the error is raised
    before anything else happens, so the world is returned as it was: no
    output directory is created and no record is pulled. *)
Theorem C7_configuration_mutual_exclusion cfg dataset (w : World) :
  (size_mb cfg ≠ None ∧ article_count cfg ≠ None)
  ∨ (size_mb cfg = None ∧ article_count cfg = None) →
  fetch_wikipedia_dataset cfg dataset w = (Raise ValueError, w).
Proof.
  intros [Hboth|Hneither]; unfold fetch_wikipedia_dataset.
  - rewrite bool_decide_eq_false_2 by (intros [? _]; by destruct Hboth).
    by rewrite bool_decide_eq_true_2.
  - by rewrite bool_decide_eq_true_2.
Qed.

Lemma C7_configuration_mutual_exclusion_witness :
  fetch_wikipedia_dataset (sample_config (Some (Ffin 10)) (Some 2000))
    (Some [Yield (sample_article "A" 600)]) empty_world
  = (Raise ValueError, empty_world)
  ∧ fetch_wikipedia_dataset (sample_config None None)
      (Some [Yield (sample_article "A" 600)]) empty_world
    = (Raise ValueError, empty_world).
Proof.
  split; apply C7_configuration_mutual_exclusion; simpl.
  - left. split; discriminate.
  - right. split; reflexivity.
Defined.

Lemma loop_body_written cfg target article st st' (w w' : World) :
  loop_body cfg target article st w = (Ok st', w') →
  (admissible article = false
   ∧ articles_saved st' = articles_saved st
   ∧ total_size_bytes st' = total_size_bytes st
   ∧ size (files w') = size (files w))
  ∨ (admissible article = true
     ∧ articles_saved st' = articles_saved st + 1
     ∧ total_size_bytes st' = total_size_bytes st + article_bytes article
     ∧ size (files w') = S (size (files w))).
Proof.
  intros Hrun. destruct (admissible article) eqn:Hadm.
  - right. destruct (loop_body_accept cfg target article st w Hadm)
      as (k & text & doc & Htext & _ & Hfree & _ & Heq).
    rewrite Heq in Hrun. unfold after_progress in Hrun.
    destruct (progress_update _ _ _); simplify_eq. simpl.
    rewrite map_size_insert_None by done.
    unfold article_bytes. by rewrite Htext, estimate_size_utf8.
  - left. rewrite loop_body_reject in Hrun by done. by simplify_eq.
Qed.

(** The documents a completed loop has written: admissible records of
    the stream, counted by [articles_saved], their bytes summed in
    [total_size_bytes], one new file each. *)
Lemma stream_written cfg target dataset st st' (w w' : World) :
  stream cfg target dataset st w = (Ok st', w') →
  ∃ written : list Article,
    Forall (λ a, admissible a = true ∧ Yield a ∈ dataset) written
    ∧ articles_saved st' = articles_saved st + Z.of_nat (length written)
    ∧ total_size_bytes st' = total_size_bytes st + bytes_of written
    ∧ Z.of_nat (size (files w'))
      = Z.of_nat (size (files w)) + Z.of_nat (length written).
Proof.
  revert st w. induction dataset as [|[article|] rest IH]; intros st w Hrun.
  - simpl in Hrun. unfold mret, M_ret in Hrun. simplify_eq.
    exists []. simpl. repeat split; (done || lia).
  - rewrite stream_yield in Hrun.
    assert (∀ st0 (w0 : World), (Ok st, pulled_one w) = (Ok st0, w0) →
      ∃ written : list Article,
        Forall (λ a, admissible a = true ∧ Yield a ∈ Yield article :: rest)
               written
        ∧ articles_saved st0 = articles_saved st + Z.of_nat (length written)
        ∧ total_size_bytes st0 = total_size_bytes st + bytes_of written
        ∧ Z.of_nat (size (files w0))
          = Z.of_nat (size (files w)) + Z.of_nat (length written)) as Hstop.
    { intros st0 w0 [= <- <-]. exists []. simpl. repeat split; (done || lia). }
    destruct (size_reached cfg target st) as [[|]|]; [by apply Hstop| |done].
    destruct (count_reached cfg st) as [[|]|]; [by apply Hstop| |done].
    destruct (loop_body cfg target article st (pulled_one w))
      as [[st1|e] w1] eqn:Hbody; [|done].
    apply IH in Hrun as (written & Hall & Hsaved & Htotal & Hfiles).
    assert (Forall (λ a, admissible a = true ∧ Yield a ∈ Yield article :: rest)
                   written) as Hall'.
    { eapply Forall_impl; [apply Hall|]. intros a [? ?].
      split; [done | by apply list_elem_of_further]. }
    apply loop_body_written in Hbody
      as [(_ & Hs & Ht & Hf)|(Hadm & Hs & Ht & Hf)]; simpl in Hf.
    + exists written. repeat split; (done || lia).
    + exists (article :: written). simpl. split.
      * apply Forall_cons. split; [|done].
        split; [done | apply list_elem_of_here].
      * repeat split; lia.
  - done.
Qed.

(** C9. Average-size guard.  The final statistics never raise.  For a
    run that completes, let the documents saved be the records it has
    written (admissible records of the stream, one new file each, their
    number reported as [articles_saved], the bytes of their contents
    summed in the reported total): when no document was saved,
    [average_article_size_kb] is the integer 0; when at least one was
    saved, it is the total bytes divided by the number of documents saved,
    divided by 1024. *)
Theorem C9_average_size_guard cfg dataset (w w' : World) stats :
  fetch_wikipedia_dataset cfg dataset w = (Ok stats, w') →
  (∀ st, ∃ s, final_statistics cfg st = Ok s)
  ∧ ∃ (records : list pull) (written : list Article),
      dataset = Some records
      ∧ Forall (λ a, admissible a = true ∧ Yield a ∈ records) written
      ∧ Z.of_nat (size (files w'))
        = Z.of_nat (size (files w)) + Z.of_nat (length written)
      ∧ stats_articles_saved stats = Z.of_nat (length written)
      ∧ stats_total_size_mb stats = IntDivInt (bytes_of written) (1024 * 1024)
      ∧ (written = [] → stats_average_article_size_kb stats = PyInt 0)
      ∧ (written ≠ [] →
         stats_average_article_size_kb stats
         = PyFloat (FloatDivInt
             (IntDivInt (bytes_of written) (Z.of_nat (length written))) 1024)).
Proof.
  intros (records & st & -> & Hstream & Hfinal)%fetch_ok_inv.
  split. { intros st0. rewrite final_statistics_ok. by eexists. }
  apply stream_written in Hstream
    as (written & Hall & Hsaved & Htotal & Hfiles).
  rewrite final_statistics_ok in Hfinal. simplify_eq. simpl in *.
  exists records, written. rewrite Hsaved, Htotal. simpl.
  repeat split; try done.
  - intros ->. reflexivity.
  - intros Hne. destruct written as [|a written]; [done|].
    destruct (Z.ltb_spec 0 (Z.of_nat (length (a :: written))));
      [done | simpl in *; lia].
Qed.

Lemma C9_average_size_guard_witness :
  let run := fetch_wikipedia_dataset (sample_config None (Some 2))
               (Some [Yield (sample_article "A" 600);
                      Yield (sample_article "B" 50);
                      Yield (sample_article "C" 600)]) empty_world in
  ∃ stats written,
    run = (Ok stats, run.2)
    ∧ written ≠ []
    ∧ stats_articles_saved stats = Z.of_nat (length written)
    ∧ stats_average_article_size_kb stats
      = PyFloat (FloatDivInt
          (IntDivInt (bytes_of written) (Z.of_nat (length written))) 1024).
Proof.
  intros run.
  assert (∃ stats, run.1 = Ok stats) as [stats Hstats].
  { vm_compute. by eexists. }
  assert (run = (Ok stats, run.2)) as Hrun.
  { rewrite (surjective_pairing run) at 1. by rewrite Hstats. }
  assert (size (files run.2) = 2%nat) as Hsize.
  { vm_compute. reflexivity. }
  destruct (C9_average_size_guard _ _ _ _ _ Hrun)
    as (_ & records & written & _ & _ & Hfiles & Hsaved & _ & _ & Hpos).
  assert (written ≠ []) as Hne.
  { assert (size (files empty_world) = 0%nat) as Hempty by reflexivity.
    intros ->. rewrite Hsize, Hempty in Hfiles. simpl in Hfiles. lia. }
  exists stats, written. split; [exact Hrun|]. split; [exact Hne|].
  split; [exact Hsaved | exact (Hpos Hne)].
Defined.

(** C6. Transformer contract: for every record the filter lets through,
    the loop writes one new file, and the document stored in it has the
    title of the record unchanged, the body text of the record as its
    content, an empty list of categories, the url of the record or the
    empty string, and the id of the record or the empty string. *)
Theorem C6_transformer_contract cfg target article st (w : World) :
  no_text article = Ok false →
  very_short article = Ok false →
  ∃ filename doc,
    convert_to_rag_format article = Ok doc
    ∧ files w !! filename = None
    ∧ files (loop_body cfg target article st w).2
      = <[filename := ArticleFile doc]> (files w)
    ∧ rag_title doc = art_title article
    ∧ art_text article = Some (rag_content doc)
    ∧ md_categories (rag_metadata doc) = []
    ∧ md_url (rag_metadata doc) = default [] (art_url article)
    ∧ md_id (rag_metadata doc) = default [] (art_id article).
Proof.
  intros Hno Hshort.
  destruct (loop_body_accept cfg target article st w
              (accepted_admissible article Hno Hshort))
    as (k & text & doc & Htext & Hconv & Hfree & _ & ->).
  exists (candidate (clean_article_title (art_title article)) k), doc.
  split; [done|]. split; [done|]. split; [reflexivity|].
  unfold convert_to_rag_format, subscript_text in Hconv.
  rewrite Htext in Hconv. simpl in Hconv. by simplify_eq.
Qed.

Lemma C6_transformer_contract_witness :
  ∃ filename doc,
    convert_to_rag_format (sample_article "A/B" 600) = Ok doc
    ∧ files empty_world !! filename = None
    ∧ files (loop_body (sample_config None (Some 2)) None
               (sample_article "A/B" 600) initial_locals empty_world).2
      = <[filename := ArticleFile doc]> (files empty_world)
    ∧ rag_title doc = lit "A/B"
    ∧ Some (replicate 600 97%N) = Some (rag_content doc)
    ∧ md_categories (rag_metadata doc) = []
    ∧ md_url (rag_metadata doc) = []
    ∧ md_id (rag_metadata doc) = lit "12".
Proof.
  apply (C6_transformer_contract (sample_config None (Some 2)) None
           (sample_article "A/B" 600) initial_locals empty_world);
    vm_compute; reflexivity.
Defined.

Lemma loop_body_reject_counts cfg target article st (w : World) :
  admissible article = false →
  ∃ st',
    loop_body cfg target article st w = (Ok st', w)
    ∧ articles_skipped st' = articles_skipped st + 1
    ∧ articles_saved st' = articles_saved st
    ∧ total_size_bytes st' = total_size_bytes st.
Proof.
  intros Hadm. exists (skip st). rewrite loop_body_reject by done. done.
Qed.

(** C5. Filter contract: the loop rejects a record -- the skip counter
    goes up by one, the world is left as it was (no file written), the
    byte total and the saved count are unchanged -- if and only if its
    body text is absent, or shorter than 100 characters once trimmed, or
    shorter than 500 characters untrimmed; every other record is
    accepted: its document is written to a new file and, when the turn
    completes, the saved count goes up by one, the byte total by the
    bytes of the text, and the skip counter is unchanged.  In particular
    a record of trimmed length at least 100 and untrimmed length below
    500 is rejected. *)
Theorem C5_filter_contract cfg target article st (w : World) :
  let rejected_by_spec :=
    art_text article = None
    ∨ ∃ text, art_text article = Some text
              ∧ (len (strip text) < 100 ∨ len text < 500) in
  let run := loop_body cfg target article st w in
  let rejected :=
    ∃ st', run = (Ok st', w)
           ∧ articles_skipped st' = articles_skipped st + 1
           ∧ articles_saved st' = articles_saved st
           ∧ total_size_bytes st' = total_size_bytes st in
  (rejected ↔ rejected_by_spec)
  ∧ (¬ rejected_by_spec →
     ∃ filename doc text,
       art_text article = Some text
       ∧ rag_content doc = text
       ∧ files w !! filename = None
       ∧ files run.2 = <[filename := ArticleFile doc]> (files w)
       ∧ dir_exists run.2 = dir_exists w
       ∧ pulled run.2 = pulled w
       ∧ ∀ st', run.1 = Ok st' →
           articles_saved st' = articles_saved st + 1
           ∧ articles_skipped st' = articles_skipped st
           ∧ total_size_bytes st'
             = total_size_bytes st + Z.of_nat (length (utf8_encode text)))
  ∧ (∀ text, art_text article = Some text →
       100 ≤ len (strip text) → len text < 500 → rejected).
Proof.
  intros rejected_by_spec run rejected.
  assert (admissible article = false ↔ rejected_by_spec) as Hiff.
  { unfold admissible, rejected_by_spec.
    destruct (art_text article) as [text|]; [|by split; [left|]].
    destruct (Z.ltb_spec (len (strip text)) 100),
             (Z.ltb_spec (len text) 500); simpl.
    all: split; [intros ?|intros [?|(t & [= <-] & [?|?])]];
      try done; try lia.
    all: right; exists text; split; [done|]; lia. }
  split; [|split].
  - split.
    + intros (st' & Hrun & _). apply Hiff.
      destruct (admissible article) eqn:Hadm; [|done].
      destruct (loop_body_accept cfg target article st w Hadm)
        as (k & text & doc & _ & _ & Hfree & _ & Heq).
      unfold run in Hrun. rewrite Heq in Hrun. injection Hrun as _ Hw.
      apply (f_equal (λ w0, files w0 !!
        candidate (clean_article_title (art_title article)) k)) in Hw.
      simpl in Hw. rewrite lookup_insert_eq, Hfree in Hw. done.
    + intros Hrej%Hiff. by apply loop_body_reject_counts.
  - intros Hacc. destruct (admissible article) eqn:Hadm.
    + destruct (loop_body_accept cfg target article st w Hadm)
        as (k & text & doc & Htext & Hconv & Hfree & _ & Heq).
      exists (candidate (clean_article_title (art_title article)) k),
        doc, text.
      unfold convert_to_rag_format, subscript_text in Hconv.
      rewrite Htext in Hconv. simpl in Hconv. injection Hconv as <-.
      unfold run. rewrite Heq. simpl.
      repeat split; try done.
      all: unfold after_progress in *;
        destruct (progress_update _ _ _); simplify_eq; simpl; try done.
      by rewrite estimate_size_utf8.
    + destruct Hacc. by apply Hiff.
  - intros text Htext Hstrip Hlen. apply loop_body_reject_counts, Hiff.
    right. exists text. split; [done | by right].
Qed.

Lemma C5_filter_contract_witness :
  ∃ st',
    loop_body (sample_config None (Some 2)) None (sample_article "A" 120)
              initial_locals empty_world = (Ok st', empty_world)
    ∧ articles_skipped st' = 0 + 1
    ∧ articles_saved st' = 0
    ∧ total_size_bytes st' = 0.
Proof.
  refine (proj2 (proj2 (C5_filter_contract (sample_config None (Some 2)) None
            (sample_article "A" 120) initial_locals empty_world))
            (replicate 120 97%N) _ _ _); vm_compute; congruence.
Defined.

(** C1. Collision-safe naming.  For every document written: the base of
    the file name is the title with each unsafe character replaced by an
    underscore and every other character kept in place; the name used is
    the first free one of [T.json], [T_1.json], [T_2.json], ... (all
    earlier ones exist); the write adds that one file and leaves every
    existing file as it was.  A second document whose title gives the same
    base goes to a different file, both are kept, and when [T.json] and
    [T_1.json] were both free the first document is [T.json] and the
    second [T_1.json]. *)
Theorem C1_collision_safe_naming cfg target article st (w : World) :
  no_text article = Ok false →
  very_short article = Ok false →
  let safe_title := clean_article_title (art_title article) in
  let w1 := (loop_body cfg target article st w).2 in
  safe_title = (λ c, if is_unsafe c then underscore else c) <$> art_title article
  ∧ candidate safe_title 0 = safe_title ++ lit ".json"
  ∧ (∀ k : nat, candidate safe_title (S k)
                = safe_title ++ lit "_" ++ py_str (Z.of_nat (S k)) ++ lit ".json")
  ∧ candidate safe_title 1 = safe_title ++ lit "_1.json"
  ∧ ∃ (k : nat) doc,
      files w !! candidate safe_title k = None
      ∧ (∀ i : nat, (i < k)%nat → is_Some (files w !! candidate safe_title i))
      ∧ files w1 = <[candidate safe_title k := ArticleFile doc]> (files w)
      ∧ files w ⊆ files w1
      ∧ ∀ cfg2 target2 article2 st2,
          no_text article2 = Ok false →
          very_short article2 = Ok false →
          clean_article_title (art_title article2) = safe_title →
          ∃ (k2 : nat) doc2,
            candidate safe_title k2 ≠ candidate safe_title k
            ∧ files (loop_body cfg2 target2 article2 st2 w1).2
              = <[candidate safe_title k2 := ArticleFile doc2]> (files w1)
            ∧ files w1 ⊆ files (loop_body cfg2 target2 article2 st2 w1).2
            ∧ (files w !! candidate safe_title 0 = None →
               files w !! candidate safe_title 1 = None →
               k = 0%nat ∧ k2 = 1%nat).
Proof.
  intros Hno Hshort safe_title w1.
  split; [apply clean_article_title_fmap|].
  split; [reflexivity|]. split; [reflexivity|].
  split. { unfold candidate, numbered_filename. f_equal. }
  destruct (loop_body_accept cfg target article st w
              (accepted_admissible article Hno Hshort))
    as (k & text & doc & _ & _ & Hfree & Hbelow & Hrun).
  fold safe_title in Hfree, Hbelow, Hrun.
  assert (files w1 = <[candidate safe_title k := ArticleFile doc]> (files w))
    as Hw1 by (unfold w1; by rewrite Hrun).
  exists k, doc. split; [done|]. split; [done|]. split; [done|].
  split. { rewrite Hw1. by apply insert_subseteq. }
  intros cfg2 target2 article2 st2 Hno2 Hshort2 Hsame.
  destruct (loop_body_accept cfg2 target2 article2 st2 w1
              (accepted_admissible article2 Hno2 Hshort2))
    as (k2 & text2 & doc2 & _ & _ & Hfree2 & Hbelow2 & Hrun2).
  rewrite Hsame in Hfree2, Hbelow2, Hrun2.
  exists k2, doc2. rewrite Hrun2. simpl.
  split.
  { intros Heq. rewrite Heq, Hw1, lookup_insert_eq in Hfree2. done. }
  split; [done|]. split; [by apply insert_subseteq|].
  intros Hfree0 Hfree1.
  assert (k = 0%nat) as ->.
  { destruct k as [|k]; [done|].
    destruct (Hbelow 0%nat) as [c Hc]; [lia|].
    simpl in Hc. rewrite Hfree0 in Hc. done. }
  split; [done|].
  destruct k2 as [|[|k2]]; [|done|].
  - rewrite Hw1, lookup_insert_eq in Hfree2. done.
  - destruct (Hbelow2 1%nat) as [c Hc]; [lia|].
    rewrite Hw1, lookup_insert_ne in Hc;
      [simpl in Hc; rewrite Hfree1 in Hc; done|].
    intros Heq. by apply (inj (candidate safe_title)) in Heq.
Qed.

(** The scenario of the specification: titles [A/B] and [A_B], an empty
    directory; the files are [A_B.json] and [A_B_1.json]. *)
Lemma C1_collision_safe_naming_witness :
  let cfg := sample_config None (Some 2) in
  let w1 := (loop_body cfg None (sample_article "A/B" 600)
                       initial_locals empty_world).2 in
  let w2 := (loop_body cfg None (sample_article "A_B" 600)
                       initial_locals w1).2 in
  clean_article_title (lit "A/B") = lit "A_B"
  ∧ ∃ doc doc2,
      files w1 = <[lit "A_B.json" := ArticleFile doc]> ∅
      ∧ files w2 = <[lit "A_B_1.json" := ArticleFile doc2]> (files w1).
Proof.
  intros cfg w1 w2.
  destruct (C1_collision_safe_naming cfg None (sample_article "A/B" 600)
              initial_locals empty_world eq_refl eq_refl)
    as (Hclean & _ & _ & _ & k & doc & _ & _ & Hw1 & _ & Hsecond).
  destruct (Hsecond cfg None (sample_article "A_B" 600) initial_locals
              eq_refl eq_refl eq_refl)
    as (k2 & doc2 & _ & Hw2 & _ & Hnames).
  destruct Hnames as [-> ->]; [reflexivity | reflexivity |].
  split; [reflexivity|]. exists doc, doc2. split; [exact Hw1 | exact Hw2].
Defined.

(** C2. Count-budget exactness: with a count target N > 0 and a source
    that offers at least N admissible records, the run completes and has
    written exactly N documents: N is the number it reports as saved and
    the number of files the directory has gained. *)
Theorem C2_count_budget_exactness cfg (N : Z) records (w : World) :
  size_mb cfg = None →
  article_count cfg = Some N →
  0 < N →
  N ≤ admissible_count records →
  ∃ stats w',
    fetch_wikipedia_dataset cfg (Some (Yield <$> records)) w = (Ok stats, w')
    ∧ stats_articles_saved stats = N
    ∧ Z.of_nat (size (files w')) = Z.of_nat (size (files w)) + N
    ∧ files w ⊆ files w'.
Proof.
  intros Hsize Hcount Hpos Hoffer.
  rewrite fetch_one_target by (left; rewrite Hsize, Hcount; done).
  pose proof (stream_extends cfg (target_size_bytes cfg) (Yield <$> records)
                initial_locals (made_dir w)) as Hext.
  destruct (stream_count cfg N Hsize Hcount Hpos (target_size_bytes cfg)
              records initial_locals (made_dir w))
    as (st' & w' & Hrun & Hsaved & Hfiles & _); [simpl; lia|].
  rewrite Hrun in Hext |- *. rewrite final_statistics_ok.
  simpl in Hsaved, Hfiles, Hext.
  eexists _, w'. split; [reflexivity|]. simpl.
  split; [lia|]. split; [lia|]. apply Hext.
Qed.

(** The scenario of the specification: five records, two of them with a
    body of 50 characters, count target 3. *)
Lemma C2_count_budget_exactness_witness :
  ∃ stats w',
    fetch_wikipedia_dataset (sample_config None (Some 3))
      (Some (Yield <$> [sample_article "A" 600; sample_article "B" 50;
                        sample_article "C" 600; sample_article "D" 50;
                        sample_article "E" 600])) empty_world
    = (Ok stats, w')
    ∧ stats_articles_saved stats = 3
    ∧ Z.of_nat (size (files w')) = Z.of_nat (size (files empty_world)) + 3
    ∧ files empty_world ⊆ files w'.
Proof.
  apply (C2_count_budget_exactness (sample_config None (Some 3)) 3
           [sample_article "A" 600; sample_article "B" 50;
            sample_article "C" 600; sample_article "D" 50;
            sample_article "E" 600] empty_world);
    [reflexivity | reflexivity | lia | vm_compute; congruence].
Defined.

(** The run under a positive byte target.  The threshold is a finite
    float, or the admissible text of the source is smaller than the
    bound of the floats. *)
Lemma fetch_bytes cfg (T : Q) records (w : World) :
  size_mb cfg = Some (Ffin T) →
  article_count cfg = None →
  (0 < T)%Q →
  (megabytes T < float_overflow)%Q
  ∨ (inject_Z (bytes_of (List.filter admissible records)) < float_overflow)%Q →
  ∃ st' w' written rest,
    fetch_wikipedia_dataset cfg (Some (Yield <$> records)) w
    = (final_statistics cfg st', w')
    ∧ List.filter admissible records = written ++ rest
    ∧ articles_saved st' = Z.of_nat (length written)
    ∧ total_size_bytes st' = bytes_of written
    ∧ (∀ n : nat, (n < length written)%nat →
         (inject_Z (bytes_of (take n written)) < megabytes T)%Q)
    ∧ (rest ≠ [] → (megabytes T <= inject_Z (bytes_of written))%Q)
    ∧ Z.of_nat (size (files w'))
      = Z.of_nat (size (files w)) + Z.of_nat (length written).
Proof.
  intros Hsize Hcount Hpos Hbound.
  rewrite fetch_one_target by (right; rewrite Hsize, Hcount; done).
  destruct (positive_target T Hpos) as [[Hfinite _]|[Hinf Htarget]].
  - destruct (stream_bytes cfg T Hsize Hcount Hpos Hfinite records
                initial_locals (made_dir w))
      as (st' & w' & written & rest & -> & Hfilter & Hsaved & Htotal
          & Hprefix & Hrest & Hfiles).
    exists st', w', written, rest. simpl in *.
    rewrite Htotal in Hrest. repeat split; try done; lia.
  - destruct Hbound as [Hfinite|Hdata]; [by apply Qle_not_lt in Hinf|].
    assert (float_truthy (Ffin T) = true) as Htruthy.
    { by apply (byte_truthy T). }
    assert (target_size_bytes cfg = Some Finf) as Htarget'.
    { unfold target_size_bytes. by rewrite Hsize, Htruthy, Htarget. }
    assert (size_mb_truthy cfg = true) as Htruthy'.
    { unfold size_mb_truthy. by rewrite Hsize. }
    destruct (stream_never_stops cfg (target_size_bytes cfg)) with
      (records := records) (st := initial_locals) (w := made_dir w)
      as (st' & w' & -> & Hsaved & _ & _ & Htotal & Hfiles).
    + intros st. unfold size_reached. by rewrite Htruthy', Htarget'.
    + intros st. unfold count_reached, article_count_truthy.
      by rewrite Hcount.
    + intros st. unfold progress_update. case_decide; [|done].
      unfold int_truediv. rewrite decide_False by lia.
      by rewrite Htruthy', Htarget'.
    + exists st', w', (List.filter admissible records), [].
      unfold admissible_count in *. simpl in *.
      rewrite app_nil_r. repeat split; try done; try lia.
      intros n _. eapply Qle_lt_trans; [|eapply Qlt_le_trans; [apply Hdata|done]].
      rewrite <- Zle_Qle. apply bytes_of_take_le.
Qed.

(** C3. Byte-budget exactness: with a byte target of T > 0 megabytes the
    run completes; the documents it writes are the admissible records up
    to and including the first one whose write brings the accumulated
    bytes to at least T·2^20 (before each write the accumulated bytes are
    below the threshold, and if an admissible record is left unwritten the
    threshold has been reached); nothing is written after that one.  The
    amount accumulated for a document is the number of bytes of the UTF-8
    encoding of the content field of the document written, and the total
    the run reports is the sum of these.  (The threshold is a finite
    float, or -- when [size_mb * 1024 * 1024] overflows to infinity -- the
    admissible text of the source is smaller than the bound of the
    floats, 2^1024 bytes.) *)
Theorem C3_byte_budget_exactness cfg (T : Q) records (w : World) :
  size_mb cfg = Some (Ffin T) →
  article_count cfg = None →
  (0 < T)%Q →
  (megabytes T < float_overflow)%Q
  ∨ (inject_Z (bytes_of (List.filter admissible records)) < float_overflow)%Q →
  ∃ stats w' written rest,
    fetch_wikipedia_dataset cfg (Some (Yield <$> records)) w = (Ok stats, w')
    ∧ List.filter admissible records = written ++ rest
    ∧ stats_articles_saved stats = Z.of_nat (length written)
    ∧ Z.of_nat (size (files w'))
      = Z.of_nat (size (files w)) + Z.of_nat (length written)
    ∧ stats_total_size_mb stats = IntDivInt (bytes_of written) (1024 * 1024)
    ∧ (∀ n : nat, (n < length written)%nat →
         (inject_Z (bytes_of (take n written)) < megabytes T)%Q)
    ∧ (rest ≠ [] → (megabytes T <= inject_Z (bytes_of written))%Q)
    ∧ (∀ article, article ∈ written →
         ∃ doc, convert_to_rag_format article = Ok doc
                ∧ article_bytes article
                  = Z.of_nat (length (utf8_encode (rag_content doc)))).
Proof.
  intros Hsize Hcount Hpos Hbound.
  destruct (fetch_bytes cfg T records w Hsize Hcount Hpos Hbound)
    as (st' & w' & written & rest & -> & Hfilter & Hsaved & Htotal
        & Hprefix & Hrest & Hfiles).
  rewrite final_statistics_ok.
  eexists _, w', written, rest. split; [reflexivity|]. simpl.
  rewrite Htotal. repeat split; try done.
  intros article Hin.
  assert (admissible article = true) as Hadm.
  { assert (In article (List.filter admissible records)) as Hin'.
    { rewrite Hfilter. apply in_or_app. left. by apply list_elem_of_In. }
    by apply filter_In in Hin' as [_ ?]. }
  unfold admissible in Hadm. unfold convert_to_rag_format, subscript_text,
    article_bytes.
  destruct (art_text article) as [text|]; [|done].
  eexists. split; reflexivity.
Qed.

Lemma C3_byte_budget_exactness_witness :
  ∃ stats w' written rest,
    fetch_wikipedia_dataset (sample_config (Some (Ffin (1 # 1024))) None)
      (Some (Yield <$> [sample_article "A" 600; sample_article "B" 600;
                        sample_article "C" 600])) empty_world
    = (Ok stats, w')
    ∧ List.filter admissible [sample_article "A" 600; sample_article "B" 600;
                              sample_article "C" 600] = written ++ rest
    ∧ stats_articles_saved stats = Z.of_nat (length written)
    ∧ Z.of_nat (size (files w'))
      = Z.of_nat (size (files empty_world)) + Z.of_nat (length written)
    ∧ stats_total_size_mb stats = IntDivInt (bytes_of written) (1024 * 1024)
    ∧ (∀ n : nat, (n < length written)%nat →
         (inject_Z (bytes_of (take n written)) < megabytes (1 # 1024))%Q)
    ∧ (rest ≠ [] → (megabytes (1 # 1024) <= inject_Z (bytes_of written))%Q)
    ∧ (∀ article, article ∈ written →
         ∃ doc, convert_to_rag_format article = Ok doc
                ∧ article_bytes article
                  = Z.of_nat (length (utf8_encode (rag_content doc)))).
Proof.
  apply (C3_byte_budget_exactness (sample_config (Some (Ffin (1 # 1024))) None)
           (1 # 1024)); [reflexivity | reflexivity | reflexivity |].
  left. reflexivity.
Defined.

Example byte_budget_run :
  let run := fetch_wikipedia_dataset
               (sample_config (Some (Ffin (1 # 1024))) None)
               (Some (Yield <$> [sample_article "A" 600; sample_article "B" 600;
                                 sample_article "C" 600])) empty_world in
  (stats_articles_saved <$> match run.1 with Ok s => Some s | _ => None end)
  = Some 2
  ∧ size (files run.2) = 2%nat.
Proof. vm_compute. split; reflexivity. Qed.

(** C4, as stated, fails: with a count target of 1 and two admissible
    records, the budget is met once the first record is saved, and the
    loop still takes the second record from the stream before it stops. *)
Lemma C4_no_extra_pull_counterexample :
  let cfg := sample_config None (Some 1) in
  let a := sample_article "A" 600 in
  let b := sample_article "B" 600 in
  let r1 := stream cfg None [Yield a] initial_locals empty_world in
  let r2 := stream cfg None [Yield a; Yield b] initial_locals empty_world in
  (∃ st1, r1.1 = Ok st1 ∧ count_reached cfg st1 = Ok true)
  ∧ pulled r1.2 = 1%nat
  ∧ r2.1 = r1.1
  ∧ pulled r2.2 = 2%nat.
Proof.
  vm_compute. split; [|done]. eexists. split; reflexivity.
Qed.

(** C4, amended.  The stop checks are the first statements of the loop
    body, after the record has been taken: once the budget is met the
    loop takes at most one more record from the stream, and drops it
    untouched (it is not filtered, counted or written) as it stops. *)
Theorem C4_at_most_one_extra_pull cfg target dataset st (w : World) :
  size_reached cfg target st = Ok true
  ∨ (size_reached cfg target st = Ok false ∧ count_reached cfg st = Ok true) →
  stream cfg target dataset st w
  = match dataset with
    | [] => (Ok st, w)
    | Interrupt :: _ => (Raise KeyboardInterrupt, w)
    | Yield _ :: _ => (Ok st, pulled_one w)
    end
  ∧ (pulled (stream cfg target dataset st w).2 ≤ S (pulled w))%nat
  ∧ files (stream cfg target dataset st w).2 = files w.
Proof.
  intros Hmet.
  assert (stream cfg target dataset st w
          = match dataset with
            | [] => (Ok st, w)
            | Interrupt :: _ => (Raise KeyboardInterrupt, w)
            | Yield _ :: _ => (Ok st, pulled_one w)
            end) as Hrun.
  { destruct dataset as [|[article|] rest]; [reflexivity| |reflexivity].
    rewrite stream_yield. destruct Hmet as [->|[-> ->]]; reflexivity. }
  split; [done|]. rewrite Hrun.
  destruct dataset as [|[article|] rest]; simpl; split; (lia || done).
Qed.

Lemma C4_at_most_one_extra_pull_witness :
  let cfg := sample_config None (Some 1) in
  let st := saved 600 initial_locals in
  let dataset := [Yield (sample_article "B" 600); Yield (sample_article "C" 600)] in
  stream cfg None dataset st empty_world = (Ok st, pulled_one empty_world)
  ∧ (pulled (stream cfg None dataset st empty_world).2 ≤ 1)%nat
  ∧ files (stream cfg None dataset st empty_world).2 = files empty_world.
Proof.
  intros cfg st dataset.
  apply (C4_at_most_one_extra_pull cfg None dataset st empty_world).
  right. split; reflexivity.
Defined.

(** C8, as stated, fails: a run interrupted after one document has been
    written ends with exit status 1, and no run summary file is left in
    the directory, although the document is. *)
Lemma C8_user_interrupt_counterexample :
  let run := main (sample_config None (Some 5))
               (Some [Yield (sample_article "A" 600); Interrupt])
               empty_world in
  run.1 = 1
  ∧ files run.2 !! metadata_filename = None
  ∧ is_Some (files run.2 !! lit "A.json").
Proof. vm_compute. split; [done|]. split; [done|]. by eexists. Qed.

(** C8, amended.  An interrupt received while the records are streamed
    is caught by [main], which ends the process with exit status 1: no
    final statistics are computed and [main] writes no run summary; the
    world is left as the loop left it, which is the world before the run
    with the directory created and the documents written so far. *)
Theorem C8_interrupt_exits_with_status_1 cfg dataset (w w' : World) :
  fetch_wikipedia_dataset cfg dataset w = (Raise KeyboardInterrupt, w') →
  main cfg dataset w = (1, w')
  ∧ files w ⊆ files w'
  ∧ (∀ f c, files w' !! f = Some c →
       files w !! f = Some c ∨ ∃ doc, c = ArticleFile doc).
Proof.
  intros Hrun. split.
  - unfold main. unfold fetch_wikipedia_dataset in Hrun.
    case_bool_decide; [done|]. case_bool_decide; [done|].
    fold (fetch_wikipedia_dataset cfg dataset w).
    unfold fetch_wikipedia_dataset. rewrite !bool_decide_eq_false_2 by done.
    by rewrite Hrun.
  - unfold fetch_wikipedia_dataset in Hrun.
    case_bool_decide; [done|]. case_bool_decide; [done|].
    destruct dataset as [records|]; [|done].
    unfold mbind, M_bind, mkdir, lift in Hrun; simpl in Hrun.
    pose proof (stream_extends cfg (target_size_bytes cfg) records
                  initial_locals (made_dir w)) as Hext.
    unfold made_dir, mkdir in Hext; simpl in Hext.
    destruct (stream _ _ _ _ _) as [[st|e] w1]; simpl in *.
    + rewrite final_statistics_ok in Hrun. done.
    + simplify_eq. destruct Hext as [_ Hkept Hnew _]. done.
Qed.

Lemma C8_interrupt_exits_with_status_1_witness :
  ∃ w',
    main (sample_config None (Some 5))
      (Some [Yield (sample_article "A" 600); Interrupt]) empty_world = (1, w')
    ∧ files empty_world ⊆ files w'
    ∧ (∀ f c, files w' !! f = Some c →
         files empty_world !! f = Some c ∨ ∃ doc, c = ArticleFile doc).
Proof.
  eexists.
  apply (C8_interrupt_exits_with_status_1 (sample_config None (Some 5))
           (Some [Yield (sample_article "A" 600); Interrupt]) empty_world).
  vm_compute. reflexivity.
Defined.

(** C10. A configuration with [size_mb] equal to 0.0 (or [article_count]
    equal to 0) and the other target unset passes the validation, and its
    stop checks are never true, as the claim says; but the run does not
    go on until the source is exhausted.  With eleven admissible records
    the progress report after the tenth saved document divides by the
    count that is not given (or is zero) and raises [TypeError] (or
    [ZeroDivisionError]): ten records have been pulled, ten files
    written, and the eleventh record is never asked for. *)
Lemma C10_degenerate_target_failing_run :
  let records := Yield <$> replicate 11 (sample_article "A" 600) in
  let size_zero := sample_config (Some (Ffin 0)) None in
  let count_zero := sample_config None (Some 0) in
  let by_size := fetch_wikipedia_dataset size_zero (Some records) empty_world in
  let by_count :=
    fetch_wikipedia_dataset count_zero (Some records) empty_world in
  (∀ target st, size_reached size_zero target st = Ok false
                ∧ count_reached size_zero st = Ok false)
  ∧ (∀ target st, size_reached count_zero target st = Ok false
                  ∧ count_reached count_zero st = Ok false)
  ∧ by_size.1 = Raise TypeError
  ∧ pulled by_size.2 = 10%nat ∧ size (files by_size.2) = 10%nat
  ∧ by_count.1 = Raise ZeroDivisionError
  ∧ pulled by_count.2 = 10%nat ∧ size (files by_count.2) = 10%nat.
Proof.
  intros records size_zero count_zero by_size by_count.
  assert (zero_target size_zero) as Hsize.
  { left. exists (Ffin 0). repeat split; reflexivity. }
  assert (zero_target count_zero) as Hcount.
  { right. split; reflexivity. }
  split.
  { intros target st. split;
      [by apply zero_size_reached | by apply zero_count_reached]. }
  split.
  { intros target st. split;
      [by apply zero_size_reached | by apply zero_count_reached]. }
  vm_compute. repeat split; reflexivity.
Qed.

(** * Further properties of the script *)

(** ** [estimate_size] *)

Lemma utf8_width_bounds (c : N) : 1 ≤ utf8_width c ≤ 4.
Proof. unfold utf8_width. repeat case_match; lia. Qed.

Lemma estimate_size_range (text : str) :
  len text ≤ estimate_size text ≤ 4 * len text.
Proof.
  unfold len. induction text as [|c text IH]; simpl; [lia|].
  pose proof (utf8_width_bounds c). lia.
Qed.

(** The byte count of a text is at least its number of characters and at
    most four times that number. *)
Theorem estimate_size_bounds (text : str) :
  len text ≤ estimate_size text ≤ 4 * len text.
Proof. exact (estimate_size_range text). Qed.

(** A text of ASCII characters only takes one byte per character. *)
Theorem estimate_size_ascii (text : str) :
  Forall (λ c, (c < 128)%N) text → estimate_size text = len text.
Proof.
  unfold len. induction 1 as [|c text Hc _ IH]; simpl; [done|].
  unfold utf8_width. destruct (N.ltb_spec c 128); lia.
Qed.

Lemma estimate_size_ascii_witness :
  estimate_size (lit "stub") = len (lit "stub").
Proof.
  apply estimate_size_ascii. vm_compute.
  repeat (constructor; [reflexivity|]). constructor.
Defined.

(** The byte count of a concatenation is the sum of the byte counts. *)
Theorem estimate_size_app (s t : str) :
  estimate_size (s ++ t) = estimate_size s + estimate_size t.
Proof. induction s as [|c s IH]; simpl; lia. Qed.

(** ** [clean_article_title] *)

Lemma clean_article_title_clean (title : str) :
  length (clean_article_title title) = length title
  ∧ Forall (λ c, c ∉ unsafe_chars) (clean_article_title title).
Proof.
  split; [apply clean_article_title_length|].
  rewrite clean_article_title_fmap. apply Forall_fmap, Forall_forall.
  intros c _. simpl. unfold is_unsafe. case_bool_decide as Hc; [|done].
  unfold underscore, unsafe_chars. rewrite !elem_of_cons, elem_of_nil.
  intros Hin. repeat (destruct Hin as [Hin|Hin]; [discriminate Hin|]). done.
Qed.

(** A cleaned title has the length of the title and holds none of the
    nine unsafe characters: in particular no path separator. *)
Theorem clean_article_title_safe (title : str) :
  length (clean_article_title title) = length title
  ∧ Forall (λ c, c ∉ unsafe_chars) (clean_article_title title).
Proof. exact (clean_article_title_clean title). Qed.

Lemma clean_article_title_fixed (title : str) :
  Forall (λ c, c ∉ unsafe_chars) title → clean_article_title title = title.
Proof.
  intros Hsafe. rewrite clean_article_title_fmap.
  rewrite <- (list_fmap_id title) at 2. apply Forall_fmap_ext_1.
  eapply Forall_impl; [apply Hsafe|]. intros c Hc. simpl.
  unfold is_unsafe. by rewrite bool_decide_eq_false_2.
Qed.

(** A title without unsafe characters is left as it is. *)
Theorem clean_article_title_id (title : str) :
  Forall (λ c, c ∉ unsafe_chars) title → clean_article_title title = title.
Proof. exact (clean_article_title_fixed title). Qed.

Lemma clean_article_title_id_witness :
  clean_article_title (lit "A_B") = lit "A_B".
Proof.
  apply clean_article_title_id. change (lit "A_B") with [65; 95; 66]%N.
  repeat (constructor;
    [unfold unsafe_chars; rewrite !elem_of_cons, elem_of_nil; intros Hin;
     repeat (destruct Hin as [Hin|Hin]; [discriminate Hin|]); done|]).
  constructor.
Defined.

(** Cleaning twice is cleaning once. *)
Theorem clean_article_title_idempotent (title : str) :
  clean_article_title (clean_article_title title) = clean_article_title title.
Proof. apply clean_article_title_fixed, clean_article_title_clean. Qed.

(** ** Accounting of a run *)

Lemma admissible_bytes article text :
  admissible article = true → art_text article = Some text →
  500 ≤ estimate_size text.
Proof.
  unfold admissible. intros Hadm Htext. rewrite Htext in Hadm.
  apply andb_true_iff in Hadm as [_ Hlen%negb_true_iff].
  apply Z.ltb_ge in Hlen. pose proof (estimate_size_range text). lia.
Qed.

Lemma loop_body_account cfg target article st st' (w w' : World) :
  loop_body cfg target article st w = (Ok st', w') →
  pulled w' = pulled w
  ∧ Z.of_nat (size (files w'))
    = Z.of_nat (size (files w)) + (articles_saved st' - articles_saved st)
  ∧ (articles_saved st' - articles_saved st)
    + (articles_skipped st' - articles_skipped st) = 1
  ∧ 0 ≤ articles_saved st' - articles_saved st
  ∧ 0 ≤ articles_skipped st' - articles_skipped st
  ∧ 500 * (articles_saved st' - articles_saved st)
    ≤ total_size_bytes st' - total_size_bytes st.
Proof.
  intros Hrun. destruct (admissible article) eqn:Hadm.
  - destruct (loop_body_accept cfg target article st w Hadm)
      as (k & text & doc & Htext & _ & Hfree & _ & Heq).
    pose proof (admissible_bytes article text Hadm Htext).
    rewrite Heq in Hrun. unfold after_progress in Hrun.
    destruct (progress_update _ _ _); simplify_eq. simpl.
    rewrite map_size_insert_None by done. repeat split; lia.
  - rewrite loop_body_reject in Hrun by done. simplify_eq. simpl.
    repeat split; lia.
Qed.

Lemma stream_account cfg target dataset st st' (w w' : World) :
  stream cfg target dataset st w = (Ok st', w') →
  Z.of_nat (size (files w'))
  = Z.of_nat (size (files w)) + (articles_saved st' - articles_saved st)
  ∧ 0 ≤ articles_saved st' - articles_saved st
  ∧ 0 ≤ articles_skipped st' - articles_skipped st
  ∧ 500 * (articles_saved st' - articles_saved st)
    ≤ total_size_bytes st' - total_size_bytes st
  ∧ (articles_saved st' - articles_saved st)
    + (articles_skipped st' - articles_skipped st)
    ≤ Z.of_nat (pulled w') - Z.of_nat (pulled w)
    ≤ (articles_saved st' - articles_saved st)
      + (articles_skipped st' - articles_skipped st) + 1.
Proof.
  revert st w. induction dataset as [|[article|] rest IH]; intros st w Hrun.
  - simpl in Hrun. unfold mret, M_ret in Hrun. simplify_eq. repeat split; lia.
  - rewrite stream_yield in Hrun.
    destruct (size_reached cfg target st) as [[|]|].
    { simplify_eq. simpl. repeat split; lia. }
    2:{ done. }
    destruct (count_reached cfg st) as [[|]|].
    { simplify_eq. simpl. repeat split; lia. }
    2:{ done. }
    destruct (loop_body cfg target article st (pulled_one w))
      as [[st1|e] w1] eqn:Hbody; [|done].
    apply loop_body_account in Hbody as (Hp & Hf & Hone & Hs & Hk & Hb).
    apply IH in Hrun as (Hf' & Hs' & Hk' & Hb' & Hp').
    simpl in Hp, Hf. rewrite Hp in Hp'. repeat split; lia.
  - done.
Qed.

(** A run that completes has created the output directory; the number
    of files the directory has gained is the number of documents it
    reports as saved; every record pulled was saved or skipped, except at
    most one, taken and dropped when the loop stopped; and the total it
    accumulated is at least 500 bytes per saved document. *)
Theorem run_accounting cfg dataset (w w' : World) stats :
  fetch_wikipedia_dataset cfg dataset w = (Ok stats, w') →
  dir_exists w' = true
  ∧ Z.of_nat (size (files w'))
    = Z.of_nat (size (files w)) + stats_articles_saved stats
  ∧ 0 ≤ stats_articles_saved stats
  ∧ 0 ≤ stats_articles_skipped stats
  ∧ stats_articles_saved stats + stats_articles_skipped stats
    ≤ Z.of_nat (pulled w') - Z.of_nat (pulled w)
    ≤ stats_articles_saved stats + stats_articles_skipped stats + 1
  ∧ ∃ total, stats_total_size_mb stats = IntDivInt total (1024 * 1024)
             ∧ 500 * stats_articles_saved stats ≤ total.
Proof.
  intros (records & st & _ & Hstream & Hfinal)%fetch_ok_inv.
  pose proof (stream_extends cfg (target_size_bytes cfg) records
                initial_locals (made_dir w)) as [Hdir _ _ _].
  rewrite Hstream in Hdir. simpl in Hdir.
  apply stream_account in Hstream as (Hf & Hs & Hk & Hb & Hp).
  rewrite final_statistics_ok in Hfinal. simplify_eq. simpl in *.
  split; [done|]. split; [lia|]. split; [lia|]. split; [lia|].
  split; [lia|]. exists (total_size_bytes st). split; [done | lia].
Qed.

Lemma run_accounting_witness :
  ∃ stats w',
    fetch_wikipedia_dataset (sample_config None (Some 1))
      (Some [Yield (sample_article "A" 50); Yield (sample_article "B" 600);
             Yield (sample_article "C" 600)]) empty_world = (Ok stats, w')
    ∧ dir_exists w' = true
    ∧ Z.of_nat (size (files w')) = stats_articles_saved stats
    ∧ stats_articles_saved stats + stats_articles_skipped stats + 1
      = Z.of_nat (pulled w').
Proof.
  eexists _, _. split; [vm_compute; reflexivity|].
  match goal with
  | |- context [dir_exists ?w = true] =>
      destruct (run_accounting (sample_config None (Some 1))
        (Some [Yield (sample_article "A" 50); Yield (sample_article "B" 600);
               Yield (sample_article "C" 600)]) empty_world w _ eq_refl)
        as (Hdir & _)
  end.
  split; [exact Hdir|]. vm_compute. split; reflexivity.
Defined.

(** ** What a run can raise *)

(** The exceptions of the arithmetic of the loop. *)
Definition arithmetic_error (e : exn) : Prop :=
  e = TypeError ∨ e = ZeroDivisionError.

Lemma progress_update_raises cfg target st e :
  progress_update cfg target st = Raise e → arithmetic_error e.
Proof.
  unfold progress_update, int_truediv, int_truediv_target, int_truediv_count,
    arithmetic_error, mbind, result_bind.
  intros Hrun.
  repeat (case_match; simplify_eq/=); try done.
  all: try (by left); try (by right).
  unfold int_truediv in *. case_decide; simplify_eq. by right.
Qed.

Lemma loop_body_raises cfg target article st e (w w' : World) :
  loop_body cfg target article st w = (Raise e, w') → arithmetic_error e.
Proof.
  intros Hrun. destruct (admissible article) eqn:Hadm.
  - destruct (loop_body_accept cfg target article st w Hadm)
      as (k & text & doc & _ & _ & _ & _ & Heq).
    rewrite Heq in Hrun. unfold after_progress in Hrun.
    destruct (progress_update _ _ _) eqn:Hprog; simplify_eq.
    by eapply progress_update_raises.
  - rewrite loop_body_reject in Hrun by done. done.
Qed.

Lemma stream_raises cfg target dataset st e (w w' : World) :
  stream cfg target dataset st w = (Raise e, w') →
  e = KeyboardInterrupt ∨ arithmetic_error e.
Proof.
  revert st w. induction dataset as [|[article|] rest IH]; intros st w Hrun.
  - done.
  - rewrite stream_yield in Hrun.
    destruct (size_reached cfg target st) as [[|]|e1] eqn:Hsize; [done| |].
    2:{ simplify_eq. right. left. unfold size_reached, int_ge_target in Hsize.
        repeat (case_match; simplify_eq/=); done. }
    destruct (count_reached cfg st) as [[|]|e1] eqn:Hcount; [done| |].
    2:{ simplify_eq. right. left. unfold count_reached in Hcount.
        repeat (case_match; simplify_eq/=); done. }
    destruct (loop_body cfg target article st (pulled_one w))
      as [[st1|e1] w1] eqn:Hbody.
    + by eapply IH.
    + simplify_eq. right. by eapply loop_body_raises.
  - unfold stream, raise in Hrun. simplify_eq. by left.
Qed.

Lemma fetch_raises cfg dataset (w w' : World) e :
  fetch_wikipedia_dataset cfg dataset w = (Raise e, w') →
  (e = ValueError ∧ ¬ one_target cfg ∧ w' = w)
  ∨ (e = SystemExit 1 ∧ dataset = None ∧ w' = made_dir w)
  ∨ ((e = KeyboardInterrupt ∨ arithmetic_error e) ∧ one_target cfg
     ∧ dataset ≠ None).
Proof.
  unfold fetch_wikipedia_dataset. intros Hrun.
  case_bool_decide as Hneither.
  { left. unfold raise in Hrun. simplify_eq. split; [done|]. split; [|done].
    destruct Hneither as [H1 H2]. intros [[_ ?]|[? _]]; done. }
  case_bool_decide as Hboth.
  { left. unfold raise in Hrun. simplify_eq. split; [done|]. split; [|done].
    destruct Hboth as [H1 H2]. intros [[? _]|[_ ?]]; done. }
  assert (one_target cfg) as Hone.
  { unfold one_target. destruct (size_mb cfg), (article_count cfg);
      [destruct Hboth; done | by right | by left | destruct Hneither; done]. }
  destruct dataset as [records|].
  - right. right. unfold mbind, M_bind, mkdir, lift in Hrun; simpl in Hrun.
    destruct (stream _ _ _ _ _) as [[st|e1] w1] eqn:Hstream.
    + rewrite final_statistics_ok in Hrun. done.
    + simplify_eq. split; [by eapply stream_raises | done].
  - right. left. unfold mbind, M_bind, mkdir, raise in Hrun; simpl in Hrun.
    by simplify_eq.
Qed.


(** ** Targets that are never reached *)

(** With [size_mb] infinite or not a number, the size check is never
    true: the run goes through the whole stream, pulls every record,
    saves every admissible one and skips every other one. *)
Theorem unreachable_size_target cfg records (w : World) :
  size_mb cfg = Some Finf ∨ size_mb cfg = Some Fnan →
  article_count cfg = None →
  ∃ stats w',
    fetch_wikipedia_dataset cfg (Some (Yield <$> records)) w = (Ok stats, w')
    ∧ pulled w' = (pulled w + length records)%nat
    ∧ stats_articles_saved stats = admissible_count records
    ∧ stats_articles_skipped stats
      = Z.of_nat (length records) - admissible_count records.
Proof.
  intros Hsize Hcount.
  assert (∃ x, size_mb cfg = Some x ∧ (x = Finf ∨ x = Fnan)) as (x & Hx & Hinf).
  { destruct Hsize as [->| ->]; eexists; split; eauto. }
  rewrite fetch_one_target by (right; rewrite Hx, Hcount; done).
  assert (target_size_bytes cfg = Some x) as Htarget.
  { unfold target_size_bytes. rewrite Hx. by destruct Hinf as [->| ->]. }
  assert (size_mb_truthy cfg = true) as Htruthy.
  { unfold size_mb_truthy. rewrite Hx. by destruct Hinf as [->| ->]. }
  destruct (stream_never_stops cfg (target_size_bytes cfg)) with
    (records := records) (st := initial_locals) (w := made_dir w)
    as (st' & w' & -> & Hsaved & Hskip & Hpull & _).
  - intros st. unfold size_reached. rewrite Htruthy, Htarget.
    by destruct Hinf as [->| ->].
  - intros st. unfold count_reached, article_count_truthy. by rewrite Hcount.
  - intros st. unfold progress_update. case_decide; [|done].
    unfold int_truediv. rewrite decide_False by lia.
    rewrite Htruthy, Htarget. by destruct Hinf as [->| ->].
  - rewrite final_statistics_ok. simpl in *.
    eexists _, w'. split; [reflexivity|]. simpl. repeat split; lia.
Qed.

Lemma unreachable_size_target_witness :
  ∃ stats w',
    fetch_wikipedia_dataset (sample_config (Some Fnan) None)
      (Some (Yield <$> replicate 12 (sample_article "A" 600))) empty_world
    = (Ok stats, w')
    ∧ pulled w' = 12%nat
    ∧ stats_articles_saved stats = 12
    ∧ stats_articles_skipped stats = 0.
Proof.
  apply (unreachable_size_target (sample_config (Some Fnan) None)
           (replicate 12 (sample_article "A" 600)) empty_world);
    [by right | reflexivity].
Defined.

(** ** Targets that are met from the start *)

(** A negative target: a count below zero, a size below zero or minus
    infinity. *)
Definition negative_target (cfg : Config) : Prop :=
  (size_mb cfg = None ∧ ∃ N, article_count cfg = Some N ∧ N < 0)
  ∨ (article_count cfg = None
     ∧ (size_mb cfg = Some Fninf
        ∨ ∃ T, size_mb cfg = Some (Ffin T) ∧ (T < 0)%Q)).

Lemma negative_float_target (T : Q) :
  (T < 0)%Q →
  int_ge_float 0 (float_mul_1024 (float_mul_1024 (Ffin T))) = true.
Proof.
  intros HT. pose proof float_overflow_pos as Hbound.
  assert (T * inject_Z 1024 < 0)%Q as Hneg1.
  { change (inject_Z 1024) with (1024 # 1)%Q. lra. }
  assert (T * inject_Z 1024 * inject_Z 1024 < 0)%Q as Hneg2.
  { change (inject_Z 1024) with (1024 # 1)%Q. lra. }
  destruct (Qlt_le_dec (- float_overflow) (T * inject_Z 1024)) as [Hfin1|Hinf1].
  - rewrite (float_mul_1024_finite T) by (done || lra).
    destruct (Qlt_le_dec (- float_overflow) (T * inject_Z 1024 * inject_Z 1024))
      as [Hfin2|Hinf2].
    + rewrite float_mul_1024_finite by (done || lra). simpl.
      apply Qle_bool_iff. change (inject_Z 0) with 0%Q. lra.
    + by rewrite float_mul_1024_minus_infinite.
  - by rewrite (float_mul_1024_minus_infinite T).
Qed.

Lemma negative_target_met cfg :
  negative_target cfg →
  one_target cfg
  ∧ (size_reached cfg (target_size_bytes cfg) initial_locals = Ok true
     ∨ (size_reached cfg (target_size_bytes cfg) initial_locals = Ok false
        ∧ count_reached cfg initial_locals = Ok true)).
Proof.
  intros [[Hsize (N & Hcount & HN)]|[Hcount [Hsize|(T & Hsize & HT)]]].
  - split; [left; rewrite Hsize, Hcount; done|]. right.
    unfold size_reached, size_mb_truthy, count_reached, article_count_truthy.
    rewrite Hsize, Hcount. destruct (Z.eqb_spec N 0); [lia|]. simpl.
    split; [done|]. f_equal. apply Z.leb_le. simpl. lia.
  - split; [right; rewrite Hsize, Hcount; done|]. left.
    unfold size_reached, size_mb_truthy, target_size_bytes.
    rewrite Hsize. reflexivity.
  - split; [right; rewrite Hsize, Hcount; done|]. left.
    assert (float_truthy (Ffin T) = true) as Htruthy.
    { simpl. apply negb_true_iff, not_true_iff_false.
      rewrite Qeq_bool_iff. intros Heq. rewrite Heq in HT.
      by apply Qlt_irrefl in HT. }
    unfold size_reached, size_mb_truthy, target_size_bytes.
    rewrite Hsize, Htruthy. unfold int_ge_target. f_equal.
    by apply negative_float_target.
Qed.

(** With a negative target nothing is written: the run completes with
    zero saved and zero skipped, leaves the files of the directory as
    they were, and has taken at most one record from the stream. *)
Theorem negative_target_writes_nothing cfg records (w : World) :
  negative_target cfg →
  ∃ stats w',
    fetch_wikipedia_dataset cfg (Some (Yield <$> records)) w = (Ok stats, w')
    ∧ files w' = files w
    ∧ stats_articles_saved stats = 0
    ∧ stats_articles_skipped stats = 0
    ∧ stats_average_article_size_kb stats = PyInt 0
    ∧ pulled w' = (pulled w + (1 `min` length records))%nat.
Proof.
  intros [Hone Hmet]%negative_target_met.
  rewrite fetch_one_target by done.
  destruct records as [|article records].
  - simpl. rewrite final_statistics_ok. eexists _, _.
    split; [reflexivity|]. simpl. repeat split; lia.
  - rewrite fmap_cons, stream_yield.
    assert (match size_reached cfg (target_size_bytes cfg) initial_locals with
            | Ok true => true
            | Ok false =>
                match count_reached cfg initial_locals with
                | Ok true => true | _ => false end
            | _ => false end = true) as Hstop.
    { destruct Hmet as [->|[-> ->]]; reflexivity. }
    destruct (size_reached cfg (target_size_bytes cfg) initial_locals)
      as [[|]|]; [| |done].
    + rewrite final_statistics_ok. eexists _, _.
      split; [reflexivity|]. simpl. repeat split; lia.
    + destruct (count_reached cfg initial_locals) as [[|]|]; [|done|done].
      rewrite final_statistics_ok. eexists _, _.
      split; [reflexivity|]. simpl. repeat split; lia.
Qed.

Lemma negative_target_writes_nothing_witness :
  ∃ stats w',
    fetch_wikipedia_dataset (sample_config (Some (Ffin (-1))) None)
      (Some (Yield <$> replicate 3 (sample_article "A" 600))) empty_world
    = (Ok stats, w')
    ∧ files w' = files empty_world
    ∧ stats_articles_saved stats = 0
    ∧ stats_articles_skipped stats = 0
    ∧ stats_average_article_size_kb stats = PyInt 0
    ∧ pulled w' = 1%nat.
Proof.
  apply (negative_target_writes_nothing (sample_config (Some (Ffin (-1))) None)
           (replicate 3 (sample_article "A" 600)) empty_world).
  right. split; [reflexivity|]. right. exists (-1)%Q. split; reflexivity.
Defined.

(** ** The tenth document under a zero target *)

(** What the progress report raises when the target is zero: the
    division by a count of 0, or by the count that is not given. *)
Definition zero_target_error (cfg : Config) : exn :=
  match article_count cfg with
  | Some _ => ZeroDivisionError
  | None => TypeError
  end.

Lemma zero_progress_raises cfg target st :
  zero_target cfg → articles_saved st `mod` 10 = 0 →
  progress_update cfg target st = Raise (zero_target_error cfg).
Proof.
  intros Hzero Hmod. unfold progress_update, zero_target_error.
  rewrite decide_True by done. unfold int_truediv at 1.
  rewrite decide_False by lia. rewrite (zero_size_truthy cfg Hzero).
  destruct Hzero as [(x & _ & _ & ->)|[_ ->]]; reflexivity.
Qed.

Lemma stream_zero_raises cfg target records st (w : World) :
  zero_target cfg →
  0 ≤ articles_saved st < 10 →
  10 ≤ articles_saved st + admissible_count records →
  ∃ w',
    stream cfg target (Yield <$> records) st w
    = (Raise (zero_target_error cfg), w')
    ∧ Z.of_nat (size (files w'))
      = Z.of_nat (size (files w)) + (10 - articles_saved st).
Proof.
  intros Hzero. revert st w.
  induction records as [|article records IH]; intros st w Hst Hmany.
  - unfold admissible_count in Hmany. simpl in Hmany. lia.
  - rewrite fmap_cons, stream_yield, (zero_size_reached cfg Hzero),
      (zero_count_reached cfg Hzero).
    rewrite admissible_count_cons in Hmany.
    destruct (admissible article) eqn:Hadm.
    + destruct (loop_body_accept cfg target article st (pulled_one w) Hadm)
        as (k & text & doc & _ & _ & Hfree & _ & ->).
      unfold after_progress.
      destruct (decide (articles_saved st = 9)) as [Hnine|Hless].
      * rewrite zero_progress_raises by (done || (simpl; by rewrite Hnine)).
        eexists. split; [reflexivity|]. simpl.
        rewrite map_size_insert_None by done. lia.
      * rewrite (zero_progress cfg) by (simpl; rewrite Z.mod_small; lia).
        destruct (IH (saved (estimate_size text) st)
                     (with_file (candidate (clean_article_title
                        (art_title article)) k) (ArticleFile doc)
                        (pulled_one w)))
          as (w' & -> & Hfiles); [simpl; lia | simpl; lia |].
        exists w'. split; [done|]. simpl in Hfiles.
        rewrite map_size_insert_None in Hfiles by done. lia.
    + rewrite loop_body_reject by done.
      destruct (IH (skip st) (pulled_one w)) as (w' & -> & Hfiles);
        [simpl; lia | simpl; lia |].
      exists w'. split; [done|]. simpl in Hfiles. lia.
Qed.

(** With a zero target (size 0.0 or count 0) and a source of at least ten
    admissible records, the run ends in the progress report that follows
    the tenth write: it raises [TypeError] (size 0.0) or
    [ZeroDivisionError] (count 0) with exactly ten documents written, and
    [main] exits with status 1 without writing anything more. *)
Theorem zero_target_tenth_save_raises cfg records (w : World) :
  zero_target cfg →
  10 ≤ admissible_count records →
  ∃ w',
    fetch_wikipedia_dataset cfg (Some (Yield <$> records)) w
    = (Raise (zero_target_error cfg), w')
    ∧ Z.of_nat (size (files w')) = Z.of_nat (size (files w)) + 10
    ∧ main cfg (Some (Yield <$> records)) w = (1, w').
Proof.
  intros Hzero Hmany.
  assert (one_target cfg) as Hone.
  { unfold one_target.
    destruct Hzero as [(x & Hs & _ & Hc)|[Hs Hc]]; rewrite Hs, Hc;
      [by right | by left]. }
  assert (∃ w', fetch_wikipedia_dataset cfg (Some (Yield <$> records)) w
                = (Raise (zero_target_error cfg), w')
                ∧ Z.of_nat (size (files w')) = Z.of_nat (size (files w)) + 10)
    as (w' & Hrun & Hfiles).
  { rewrite fetch_one_target by done.
    destruct (stream_zero_raises cfg (target_size_bytes cfg) records
                initial_locals (made_dir w) Hzero)
      as (w' & -> & Hfiles); [simpl; lia | simpl; lia |].
    exists w'. split; [done|]. simpl in Hfiles. lia. }
  exists w'. split; [done|]. split; [done|].
  unfold main. rewrite !bool_decide_eq_false_2, Hrun.
  - unfold zero_target_error. by destruct (article_count cfg).
  - destruct Hone as [[-> ?]|[? ->]]; intros [? ?]; done.
  - destruct Hone as [[-> ?]|[? ->]]; intros [? ?]; done.
Qed.

Lemma zero_target_tenth_save_raises_witness :
  ∃ w',
    fetch_wikipedia_dataset (sample_config None (Some 0))
      (Some (Yield <$> replicate 12 (sample_article "A" 600))) empty_world
    = (Raise ZeroDivisionError, w')
    ∧ Z.of_nat (size (files w')) = 10
    ∧ main (sample_config None (Some 0))
        (Some (Yield <$> replicate 12 (sample_article "A" 600))) empty_world
      = (1, w').
Proof.
  apply (zero_target_tenth_save_raises (sample_config None (Some 0))
           (replicate 12 (sample_article "A" 600)) empty_world).
  - right. split; reflexivity.
  - vm_compute. congruence.
Defined.

(** ** The command line *)

Lemma main_one_target args dataset (w : World) :
  one_target args →
  main args dataset w
  = match fetch_wikipedia_dataset args dataset w with
    | (Ok stats, w') => (0, with_file metadata_filename (MetadataFile stats) w')
    | (Raise KeyboardInterrupt, w') => (1, w')
    | (Raise (SystemExit code), w') => (code, w')
    | (Raise _, w') => (1, w')
    end.
Proof.
  intros Hone. unfold main. rewrite !bool_decide_eq_false_2; [done| |].
  - destruct Hone as [[-> ?]|[? ->]]; intros [? ?]; done.
  - destruct Hone as [[-> ?]|[? ->]]; intros [? ?]; done.
Qed.

(** The exit status of [main] and what it leaves.  Without exactly one
    target the status is 2 and nothing is touched.  When the run
    completes the status is 0 and the directory is the one the run left
    with the statistics stored under [_fetch_metadata.json], in place of
    whatever had that name; every other file is as the run left it.
    When the run raises, whatever it raises, the status is 1 and the
    directory is as the run left it. *)
Theorem main_outcome args dataset (w : World) :
  (¬ one_target args → main args dataset w = (2, w))
  ∧ (∀ stats w',
       fetch_wikipedia_dataset args dataset w = (Ok stats, w') →
       (main args dataset w).1 = 0
       ∧ files (main args dataset w).2 !! metadata_filename
         = Some (MetadataFile stats)
       ∧ ∀ f, f ≠ metadata_filename →
           files (main args dataset w).2 !! f = files w' !! f)
  ∧ (∀ e w',
       one_target args →
       fetch_wikipedia_dataset args dataset w = (Raise e, w') →
       main args dataset w = (1, w')).
Proof.
  split; [|split].
  - intros Hnot. unfold main, one_target in *.
    destruct (size_mb args), (article_count args).
    + rewrite bool_decide_eq_false_2 by (intros [? _]; done).
      by rewrite bool_decide_eq_true_2.
    + destruct Hnot. by right.
    + destruct Hnot. by left.
    + by rewrite bool_decide_eq_true_2.
  - intros stats w' Hrun.
    destruct (fetch_ok_inv _ _ _ _ _ Hrun) as (records & st & -> & _ & _).
    assert (one_target args) as Hone.
    { unfold fetch_wikipedia_dataset in Hrun.
      case_bool_decide as Hneither; [done|].
      case_bool_decide as Hboth; [done|]. unfold one_target.
      destruct (size_mb args), (article_count args);
        [destruct Hboth; done | by right | by left | destruct Hneither; done]. }
    rewrite main_one_target, Hrun by done. simpl.
    split; [done|]. split; [apply lookup_insert_eq|].
    intros f Hf. by apply lookup_insert_ne.
  - intros e w' Hone Hrun. rewrite main_one_target, Hrun by done.
    apply fetch_raises in Hrun
      as [(_ & Hnot & _)|[(-> & _ & _)|([->|[->| ->]] & _ & _)]]; done.
Qed.

Lemma main_outcome_witness :
  (main (sample_config None (Some 1))
     (Some [Yield (sample_article "_fetch_metadata" 600)]) empty_world).1 = 0
  ∧ ∃ stats,
      files (main (sample_config None (Some 1))
               (Some [Yield (sample_article "_fetch_metadata" 600)])
               empty_world).2 !! metadata_filename
      = Some (MetadataFile stats).
Proof.
  destruct (proj1 (proj2 (main_outcome (sample_config None (Some 1))
              (Some [Yield (sample_article "_fetch_metadata" 600)])
              empty_world)) _ _ eq_refl) as (Hstatus & Hfile & _).
  split; [exact Hstatus|]. eexists. exact Hfile.
Defined.


(** ** The names of the files a run creates *)

Definition is_digit (c : N) : Prop := (48 ≤ c ≤ 57)%N.

Lemma pretty_N_char_digit (x : N) :
  is_digit (Ascii.N_of_ascii (pretty_N_char x)).
Proof.
  unfold pretty_N_char, is_digit.
  repeat case_match; vm_compute; split; discriminate.
Qed.

Lemma pretty_N_go_digits (x : N) (s : string) :
  Forall is_digit (lit s) → Forall is_digit (lit (pretty_N_go x s)).
Proof.
  revert s. induction (N.lt_wf_0 x) as [x _ IH]; intros s Hs.
  destruct (decide (x = 0)%N) as [->|Hx].
  - by rewrite pretty_N_go_0.
  - rewrite pretty_N_go_step by lia. apply IH.
    + apply N.div_lt; lia.
    + apply Forall_cons. split; [apply pretty_N_char_digit | done].
Qed.

Lemma py_str_digits (n : Z) : 0 < n → Forall is_digit (py_str n).
Proof.
  destruct n as [|p|p]; [lia | | lia]. intros _.
  unfold py_str, pretty, pretty_Z, pretty, pretty_positive, pretty, pretty_N.
  rewrite decide_False by lia. apply pretty_N_go_digits. constructor.
Qed.

(** A name the script may give a file: no unsafe character in it, and
    the extension [.json]. *)
Definition safe_name (f : str) : Prop :=
  Forall (λ c, c ∉ unsafe_chars) f ∧ ∃ base, f = base ++ lit ".json".

Lemma literal_safe (c : N) :
  c ∈ lit "_.json" → c ∉ unsafe_chars.
Proof.
  change (lit "_.json") with [95; 46; 106; 115; 111; 110]%N.
  unfold unsafe_chars. rewrite !elem_of_cons, !elem_of_nil.
  intros Hc Hin. destruct_or!; subst; discriminate.
Qed.

Lemma digit_safe (c : N) : is_digit c → c ∉ unsafe_chars.
Proof.
  unfold is_digit, unsafe_chars. rewrite !elem_of_cons, elem_of_nil.
  intros Hc Hin. destruct_or!; subst; lia.
Qed.

Lemma candidate_safe_name safe_title (k : nat) :
  Forall (λ c, c ∉ unsafe_chars) safe_title →
  safe_name (candidate safe_title k).
Proof.
  intros Hsafe. split.
  - destruct k as [|k]; unfold candidate, first_filename, numbered_filename.
    + apply Forall_app. split; [done|]. apply Forall_forall. intros c Hc.
      apply literal_safe. change (lit "_.json") with (lit "_" ++ lit ".json").
      apply elem_of_app. by right.
    + rewrite !Forall_app. split; [done|]. split; [|split].
      * apply Forall_forall. intros c Hc. apply literal_safe.
        change (lit "_.json") with (lit "_" ++ lit ".json").
        apply elem_of_app. by left.
      * eapply Forall_impl; [apply py_str_digits; lia | apply digit_safe].
      * apply Forall_forall. intros c Hc. apply literal_safe.
        change (lit "_.json") with (lit "_" ++ lit ".json").
        apply elem_of_app. by right.
  - destruct k as [|k]; unfold candidate, first_filename, numbered_filename.
    + by eexists.
    + exists (safe_title ++ lit "_" ++ py_str (Z.of_nat (S k))).
      by rewrite !app_assoc.
Qed.

(** Every file of [w'] that was not in [w] has a safe name. *)
Definition named_safely (w w' : World) : Prop :=
  ∀ f, is_Some (files w' !! f) → files w !! f = None → safe_name f.

Lemma named_safely_trans w1 w2 w3 :
  named_safely w1 w2 → named_safely w2 w3 → named_safely w1 w3.
Proof.
  intros H12 H23 f H3 H1.
  destruct (files w2 !! f) as [c|] eqn:H2.
  - apply H12; [by rewrite H2 | done].
  - by apply H23.
Qed.

Lemma loop_body_named_safely cfg target article st (w : World) :
  named_safely w (loop_body cfg target article st w).2.
Proof.
  destruct (admissible article) eqn:Hadm.
  - destruct (loop_body_accept cfg target article st w Hadm)
      as (k & text & doc & _ & _ & Hfree & _ & ->).
    intros f Hf Hnew. simpl in Hf.
    rewrite lookup_insert in Hf. case_decide as Heq.
    + subst f. apply candidate_safe_name, clean_article_title_clean.
    + rewrite Hnew in Hf. by destruct Hf.
  - rewrite loop_body_reject by done. intros f Hf Hnew. simpl in Hf.
    rewrite Hnew in Hf. by destruct Hf.
Qed.

Lemma stream_named_safely cfg target dataset st (w : World) :
  named_safely w (stream cfg target dataset st w).2.
Proof.
  assert (∀ w0 : World, named_safely w0 w0) as Hrefl.
  { intros w0 f Hf Hnew. rewrite Hnew in Hf. by destruct Hf. }
  assert (∀ w0 : World, named_safely w0 (pulled_one w0)) as Hpull.
  { intros w0 f Hf Hnew. simpl in Hf. rewrite Hnew in Hf. by destruct Hf. }
  revert st w. induction dataset as [|[article|] rest IH]; intros st w.
  - apply Hrefl.
  - rewrite stream_yield.
    destruct (size_reached cfg target st) as [[|]|]; try apply Hpull.
    destruct (count_reached cfg st) as [[|]|]; try apply Hpull.
    pose proof (loop_body_named_safely cfg target article st (pulled_one w))
      as Hbody.
    destruct (loop_body cfg target article st (pulled_one w)) as [[st'|e] w'].
    + eapply named_safely_trans; [apply Hpull|].
      eapply named_safely_trans; [apply Hbody | apply IH].
    + eapply named_safely_trans; [apply Hpull | apply Hbody].
  - apply Hrefl.
Qed.

Lemma fetch_named_safely cfg dataset (w : World) :
  named_safely w (fetch_wikipedia_dataset cfg dataset w).2.
Proof.
  assert (named_safely w w) as Hrefl.
  { intros f Hf Hnew. rewrite Hnew in Hf. by destruct Hf. }
  assert (named_safely w (made_dir w)) as Hdir.
  { intros f Hf Hnew. simpl in Hf. rewrite Hnew in Hf. by destruct Hf. }
  unfold fetch_wikipedia_dataset.
  case_bool_decide; [done|]. case_bool_decide; [done|].
  destruct dataset as [records|]; [|done].
  unfold mbind, M_bind, mkdir, lift; simpl.
  pose proof (stream_named_safely cfg (target_size_bytes cfg) records
                initial_locals (made_dir w)) as Hstream.
  unfold made_dir, mkdir in Hstream, Hdir; simpl in Hstream, Hdir.
  destruct (stream _ _ _ _ _) as [[st|e] w']; simpl in *;
    eapply named_safely_trans; [apply Hdir | apply Hstream
                               | apply Hdir | apply Hstream].
Qed.

(** Whatever the titles of the records and however the run ends, every
    file that [main] leaves in the directory and that was not there
    before has a name without any of the nine unsafe characters -- so
    without a path separator -- and with the extension [.json]. *)
Theorem created_files_named_safely args dataset (w : World) (f : str) :
  is_Some (files (main args dataset w).2 !! f) →
  files w !! f = None →
  Forall (λ c, c ∉ unsafe_chars) f ∧ ∃ base, f = base ++ lit ".json".
Proof.
  intros Hf Hnew.
  pose proof (fetch_named_safely args dataset w) as Hfetch.
  unfold main in Hf.
  case_bool_decide; [simpl in Hf; rewrite Hnew in Hf; by destruct Hf|].
  case_bool_decide; [simpl in Hf; rewrite Hnew in Hf; by destruct Hf|].
  destruct (fetch_wikipedia_dataset args dataset w) as [[stats|e] w'].
  - simpl in Hf. rewrite lookup_insert in Hf. case_decide as Heq.
    + subst f. split.
      * change metadata_filename with (lit "_fetch_metadata" ++ lit ".json").
        apply candidate_safe_name with (k := 0%nat).
        change (lit "_fetch_metadata") with
          [95; 102; 101; 116; 99; 104; 95; 109; 101; 116; 97; 100; 97; 116; 97]%N.
        apply Forall_forall. intros c Hc. unfold unsafe_chars.
        rewrite !elem_of_cons, elem_of_nil in Hc.
        rewrite !elem_of_cons, elem_of_nil.
        intros Hin. destruct Hc as [->|Hc]; [destruct_or!; discriminate|].
        repeat (destruct Hc as [->|Hc]; [destruct_or!; discriminate|]).
        done.
      * by exists (lit "_fetch_metadata").
    + by apply Hfetch.
  - assert (is_Some (files w' !! f)) as Hf'.
    { destruct e; done. }
    by apply Hfetch.
Qed.

Lemma created_files_named_safely_witness :
  Forall (λ c, c ∉ unsafe_chars) (lit "a_b_c.json")
  ∧ ∃ base, lit "a_b_c.json" = base ++ lit ".json".
Proof.
  apply (created_files_named_safely (sample_config None (Some 1))
           (Some [Yield (sample_article "a/b\c" 600)]) empty_world).
  - vm_compute. by eexists.
  - reflexivity.
Defined.

(** ** A source that runs out before the count target *)

Lemma stream_count_short cfg (N : Z) target records st (w : World) :
  size_mb cfg = None → article_count cfg = Some N → 0 < N →
  articles_saved st + admissible_count records < N →
  ∃ st' w',
    stream cfg target (Yield <$> records) st w = (Ok st', w')
    ∧ articles_saved st' = articles_saved st + admissible_count records
    ∧ articles_skipped st'
      = articles_skipped st
        + (Z.of_nat (length records) - admissible_count records)
    ∧ pulled w' = (pulled w + length records)%nat.
Proof.
  intros Hsize Hcount Hpos. revert st w.
  induction records as [|article records IH]; intros st w Hshort.
  - exists st, w. unfold admissible_count. simpl. repeat split; lia.
  - rewrite fmap_cons, stream_yield, (count_size_reached cfg Hsize),
      (count_count_reached cfg N Hcount Hpos).
    pose proof (admissible_count_nonneg records).
    rewrite admissible_count_cons in *.
    assert (0 ≤ if admissible article then 1 else 0)
      by (destruct (admissible article); lia).
    destruct (Z.leb_spec N (articles_saved st)); [lia|].
    destruct (admissible article) eqn:Hadm.
    + destruct (loop_body_accept cfg target article st (pulled_one w) Hadm)
        as (k & text & doc & _ & _ & _ & _ & ->).
      unfold after_progress.
      rewrite (count_progress cfg N Hsize Hcount Hpos).
      destruct (IH (saved (estimate_size text) st)
                   (with_file (candidate (clean_article_title
                      (art_title article)) k) (ArticleFile doc)
                      (pulled_one w)))
        as (st' & w' & -> & Hsaved & Hskip & Hpull); [simpl; lia|].
      exists st', w'. simpl in *. repeat split; lia.
    + rewrite loop_body_reject by done.
      destruct (IH (skip st) (pulled_one w))
        as (st' & w' & -> & Hsaved & Hskip & Hpull); [simpl; lia|].
      exists st', w'. simpl in *. repeat split; lia.
Qed.

(** With a count target N > 0 and a source that offers fewer than N
    admissible records, the run ends normally when the source runs out:
    every record has been pulled, every admissible one saved and every
    other one skipped. *)
Theorem count_target_source_exhausted cfg (N : Z) records (w : World) :
  size_mb cfg = None →
  article_count cfg = Some N →
  0 < N →
  admissible_count records < N →
  ∃ stats w',
    fetch_wikipedia_dataset cfg (Some (Yield <$> records)) w = (Ok stats, w')
    ∧ pulled w' = (pulled w + length records)%nat
    ∧ stats_articles_saved stats = admissible_count records
    ∧ stats_articles_skipped stats
      = Z.of_nat (length records) - admissible_count records.
Proof.
  intros Hsize Hcount Hpos Hshort.
  rewrite fetch_one_target by (left; rewrite Hsize, Hcount; done).
  destruct (stream_count_short cfg N (target_size_bytes cfg) records
              initial_locals (made_dir w) Hsize Hcount Hpos)
    as (st' & w' & -> & Hsaved & Hskip & Hpull); [simpl; lia|].
  rewrite final_statistics_ok. simpl in *.
  eexists _, w'. split; [reflexivity|]. simpl. repeat split; lia.
Qed.

Lemma count_target_source_exhausted_witness :
  ∃ stats w',
    fetch_wikipedia_dataset (sample_config None (Some 5))
      (Some (Yield <$> [sample_article "A" 600; sample_article "B" 50]))
      empty_world = (Ok stats, w')
    ∧ pulled w' = 2%nat
    ∧ stats_articles_saved stats = 1
    ∧ stats_articles_skipped stats = 1.
Proof.
  apply (count_target_source_exhausted (sample_config None (Some 5)) 5
           [sample_article "A" 600; sample_article "B" 50] empty_world);
    [reflexivity | reflexivity | lia | vm_compute; reflexivity].
Defined.

(** ** How far a byte target is overshot *)

(** With a byte target of T > 0 megabytes the total overshoots the
    threshold by less than the size of the last document written: the
    documents written are a prefix of the admissible records, the total
    reported is the sum of the bytes of their contents, and that total
    less the bytes of the last document written is below T·2^20.  (The
    threshold is a finite float, or the admissible text of the source is
    smaller than the bound of the floats.) *)
Theorem byte_target_overshoot cfg (T : Q) records (w : World) :
  size_mb cfg = Some (Ffin T) →
  article_count cfg = None →
  (0 < T)%Q →
  (megabytes T < float_overflow)%Q
  ∨ (inject_Z (bytes_of (List.filter admissible records)) < float_overflow)%Q →
  ∃ stats w' written rest,
    fetch_wikipedia_dataset cfg (Some (Yield <$> records)) w = (Ok stats, w')
    ∧ List.filter admissible records = written ++ rest
    ∧ stats_articles_saved stats = Z.of_nat (length written)
    ∧ stats_total_size_mb stats = IntDivInt (bytes_of written) (1024 * 1024)
    ∧ ∀ front last, written = front ++ [last] →
        (inject_Z (bytes_of written - article_bytes last) < megabytes T)%Q.
Proof.
  intros Hsize Hcount Hpos Hbound.
  destruct (fetch_bytes cfg T records w Hsize Hcount Hpos Hbound)
    as (st' & w' & written & rest & -> & Hfilter & Hsaved & Htotal
        & Hprefix & _ & _).
  rewrite final_statistics_ok.
  eexists _, w', written, rest. split; [reflexivity|]. simpl.
  rewrite Htotal. repeat split; try done.
  intros front last ->.
  specialize (Hprefix (length front)).
  rewrite length_app in Hprefix. simpl in Hprefix.
  rewrite take_app_length in Hprefix.
  rewrite bytes_of_app. simpl.
  eapply Qle_lt_trans; [|apply Hprefix; lia].
  rewrite <- Zle_Qle. lia.
Qed.

Lemma byte_target_overshoot_witness :
  ∃ stats w' written rest,
    fetch_wikipedia_dataset (sample_config (Some (Ffin (1 # 1024))) None)
      (Some (Yield <$> replicate 3 (sample_article "A" 600))) empty_world
    = (Ok stats, w')
    ∧ List.filter admissible (replicate 3 (sample_article "A" 600))
      = written ++ rest
    ∧ stats_articles_saved stats = Z.of_nat (length written)
    ∧ stats_total_size_mb stats = IntDivInt (bytes_of written) (1024 * 1024)
    ∧ ∀ front last, written = front ++ [last] →
        (inject_Z (bytes_of written - article_bytes last)
         < megabytes (1 # 1024))%Q.
Proof.
  apply (byte_target_overshoot (sample_config (Some (Ffin (1 # 1024))) None)
           (1 # 1024)); [reflexivity | reflexivity | reflexivity |].
  left. reflexivity.
Defined.

(** ** Existing files *)

Lemma fetch_extends_files cfg dataset (w : World) :
  files w ⊆ files (fetch_wikipedia_dataset cfg dataset w).2.
Proof.
  unfold fetch_wikipedia_dataset.
  case_bool_decide; [done|]. case_bool_decide; [done|].
  destruct dataset as [records|]; [|done].
  unfold mbind, M_bind, mkdir, lift; simpl.
  pose proof (stream_extends cfg (target_size_bytes cfg) records
                initial_locals (made_dir w)) as [_ Hkept _ _].
  unfold made_dir, mkdir in Hkept; simpl in Hkept.
  destruct (stream _ _ _ _ _) as [[st|e] w']; done.
Qed.

(** However a run ends, every file that was in the directory before is
    still there with the same contents when [fetch_wikipedia_dataset]
    returns; [main] changes nothing more than the run summary: every
    existing file of another name is kept as it was. *)
Theorem existing_files_kept args dataset (w : World) (f : str) (c : File) :
  files w !! f = Some c →
  files (fetch_wikipedia_dataset args dataset w).2 !! f = Some c
  ∧ (f ≠ metadata_filename → files (main args dataset w).2 !! f = Some c).
Proof.
  intros Hf.
  assert (files (fetch_wikipedia_dataset args dataset w).2 !! f = Some c)
    as Hkept.
  { eapply lookup_weaken; [done | apply fetch_extends_files]. }
  split; [done|]. intros Hne. unfold main.
  case_bool_decide; [done|]. case_bool_decide; [done|].
  destruct (fetch_wikipedia_dataset args dataset w) as [[stats|e] w'].
  - simpl in *. by rewrite lookup_insert_ne.
  - destruct e; done.
Qed.

Lemma existing_files_kept_witness :
  let w := with_file (lit "A.json") OtherFile empty_world in
  let records := Some [Yield (sample_article "A" 600)] in
  files (fetch_wikipedia_dataset (sample_config None (Some 1)) records w).2
    !! lit "A.json" = Some OtherFile
  ∧ (lit "A.json" ≠ metadata_filename →
     files (main (sample_config None (Some 1)) records w).2 !! lit "A.json"
     = Some OtherFile).
Proof.
  intros w records.
  apply (existing_files_kept (sample_config None (Some 1)) records w).
  reflexivity.
Defined.

(** ** Blank records *)

Lemma lstrip_spaces (s : str) :
  Forall (λ c, Py_UNICODE_ISSPACE c = true) s → lstrip s = [].
Proof. induction 1 as [|c s Hc _ IH]; simpl; [done|]. by rewrite Hc. Qed.

(** A record whose text is made of whitespace only is skipped, however
    long the text is: the skip counter goes up by one, nothing is
    written, and the saved count and the byte total are unchanged. *)
Theorem blank_text_skipped cfg target article text st (w : World) :
  art_text article = Some text →
  Forall (λ c, Py_UNICODE_ISSPACE c = true) text →
  ∃ st',
    loop_body cfg target article st w = (Ok st', w)
    ∧ articles_skipped st' = articles_skipped st + 1
    ∧ articles_saved st' = articles_saved st
    ∧ total_size_bytes st' = total_size_bytes st.
Proof.
  intros Htext Hblank. apply loop_body_reject_counts.
  unfold admissible. rewrite Htext.
  unfold strip. rewrite (lstrip_spaces text Hblank). reflexivity.
Qed.

Lemma blank_text_skipped_witness :
  ∃ st',
    loop_body (sample_config None (Some 1)) None
      {| art_id := None; art_url := None; art_title := lit "A";
         art_text := Some (replicate 700 32%N) |} initial_locals empty_world
    = (Ok st', empty_world)
    ∧ articles_skipped st' = 0 + 1
    ∧ articles_saved st' = 0
    ∧ total_size_bytes st' = 0.
Proof.
  apply (blank_text_skipped _ _ _ (replicate 700 32%N)); [reflexivity|].
  apply Forall_replicate. reflexivity.
Defined.
